(** * FlowLite API plugin: catalog extraction, catalog cache and image delivery

    A shallow embedding of [src/__init__.py] (the FlowLite plugin for ComfyUI)
    and the properties of its three parts:

    - the extraction of choice lists from the node registry
      ([_extract_list], [_extract_loras], [_build_catalog]);
    - the [/flowlite/catalog] handler and its process-wide cache;
    - the [/flowlite/image] handler: path resolution, PNG to JPEG
      transcoding and deletion of the source file.

    Conventions.  Python strings are [string]s, taken as sequences of 8-bit
    code units with ASCII white space and ASCII letter case; file contents are
    [list byte]; the readings of [time.time()] are exact numbers ([Z], clock
    ticks) and [CACHE_TTL] is a number of ticks.  Python dictionaries are
    association lists in insertion order, which is the order [.items()]
    iterates in. *)

From Stdlib Require Import ZArith String Ascii Strings.Byte List Lia Bool.
From stdpp Require Import base gmap strings list.

Local Open Scope string_scope.
Local Open Scope list_scope.

Local Set Warnings "-register-all".

(** ** Python values *)

(** The registry is duck-typed: [cls.INPUT_TYPES()] may return anything. *)
Inductive pyval : Type :=
| PNone
| PBool (b : bool)
| PInt (n : Z)
| PStr (s : string)
| PList (items : list pyval)
| PTuple (items : list pyval)
| PDict (entries : list (pyval * pyval)).

(** [bool(v)] *)
Definition truthy (v : pyval) : bool :=
  match v with
  | PNone => false
  | PBool b => b
  | PInt n => negb (n =? 0)%Z
  | PStr s => negb (String.eqb s "")
  | PList l | PTuple l => match l with [] => false | _ => true end
  | PDict d => match d with [] => false | _ => true end
  end.

(** [a or b] *)
Definition py_or (a b : pyval) : pyval := if truthy a then a else b.

(** [d.get(k)] for a string [k]: the value under the key equal to [k], else
    [None]. *)
Fixpoint dict_get (d : list (pyval * pyval)) (k : string) : pyval :=
  match d with
  | [] => PNone
  | (PStr k', v) :: d' => if String.eqb k' k then v else dict_get d' k
  | _ :: d' => dict_get d' k
  end.

(** [d.get(k) if isinstance(d.get(k), dict) else {}] *)
Definition dict_get_dict (d : list (pyval * pyval)) (k : string)
  : list (pyval * pyval) :=
  match dict_get d k with
  | PDict sub => sub
  | _ => []
  end.

(** [isinstance(v, (list, tuple))], with the elements of [v]. *)
Definition as_sequence (v : pyval) : option (list pyval) :=
  match v with
  | PList l | PTuple l => Some l
  | _ => None
  end.

(** ** Strings *)

(** [c.isspace()] on ASCII. *)
Definition is_space (c : ascii) : bool :=
  let n := nat_of_ascii c in
  (((9 <=? n) && (n <=? 13)) || ((28 <=? n) && (n <=? 32)))%nat.

Fixpoint lstrip (s : string) : string :=
  match s with
  | String c s' => if is_space c then lstrip s' else s
  | EmptyString => EmptyString
  end.

(** [s.strip()] *)
Definition strip (s : string) : string :=
  String.rev (lstrip (String.rev (lstrip s))).

Definition lower_ascii (c : ascii) : ascii :=
  let n := nat_of_ascii c in
  if ((65 <=? n) && (n <=? 90))%nat then ascii_of_nat (n + 32) else c.

(** [s.lower()] *)
Fixpoint lower (s : string) : string :=
  match s with
  | String c s' => String (lower_ascii c) (lower s')
  | EmptyString => EmptyString
  end.

(** [s.startswith(p)] *)
Definition startswith (s p : string) : bool := String.prefix p s.

(** [s.endswith(p)]: [s] is [p], or its tail ends with [p]. *)
Fixpoint endswith (s p : string) : bool :=
  String.eqb s p ||
  match s with
  | String _ s' => endswith s' p
  | EmptyString => false
  end.

(** [p in s] *)
Fixpoint contains (s p : string) : bool :=
  String.prefix p s ||
  match s with
  | String _ s' => contains s' p
  | EmptyString => false
  end.

(** ** Extraction of choice lists *)

(** One entry of [debug_info]. *)
Record debug_record := {
  dbg_node : pyval;
  dbg_key : string;
  dbg_count : nat;
  dbg_sample : list pyval
}.

(** The two accumulators of the extraction loops: [out] and [debug_info]
    ([None] when diagnostics are off). *)
Definition extraction : Type := list string * option (list debug_record).

(** Lines 41-43: [for item in first: if isinstance(item, str) and
    item.strip(): out.append(item.strip())]. *)
Definition append_choices (first : list pyval) (out : list string)
  : list string :=
  fold_left
    (fun out item =>
       match item with
       | PStr s => if String.eqb (strip s) "" then out else out ++ [strip s]
       | _ => out
       end)
    first out.

(** Lines 45-46: [if debug_info is not None and first: debug_info.append(...)]. *)
Definition record_debug (node_name : pyval) (k : string) (first : list pyval)
    (debug_info : option (list debug_record)) : option (list debug_record) :=
  match debug_info, first with
  | Some d, _ :: _ =>
      Some (d ++ [{| dbg_node := node_name; dbg_key := k;
                     dbg_count := length first; dbg_sample := take 3 first |}])
  | _, _ => debug_info
  end.

(** Lines 36-46: what one [lspec] adds to the accumulators. *)
Definition scan_field (node_name : pyval) (k : string) (lspec : pyval)
    (st : extraction) : extraction :=
  if negb (truthy lspec) then st
  else
    match as_sequence lspec with
    | Some (first :: _) =>
        match as_sequence first with
        | Some items =>
            (append_choices items st.1, record_debug node_name k items st.2)
        | None => st
        end
    | _ => st
    end.

(** Lines 27-33: the [required] and [optional] maps of a component, when
    [spec] and [spec["input"]] are dictionaries. *)
Definition required_optional (spec : pyval)
  : option (list (pyval * pyval) * list (pyval * pyval)) :=
  match spec with
  | PDict sd =>
      match dict_get sd "input" with
      | PDict inp =>
          Some (dict_get_dict inp "required", dict_get_dict inp "optional")
      | _ => None
      end
  | _ => None
  end.

(** Lines 34-46: the loop over [keys] for one component.  There is no
    [break]: every key is looked up. *)
Definition scan_component (keys : list string) (node_name spec : pyval)
    (st : extraction) : extraction :=
  match required_optional spec with
  | None => st
  | Some (req, opt) =>
      fold_left
        (fun st k =>
           scan_field node_name k (py_or (dict_get req k) (dict_get opt k)) st)
        keys st
  end.

(** Lines 47-53: removal of duplicates with the [seen] set. *)
Definition dedupe_step (acc : gset string * list string) (name : string)
  : gset string * list string :=
  if decide (name ∈ acc.1) then acc
  else ({[name]} ∪ acc.1, acc.2 ++ [name]).

Definition dedupe (out : list string) : list string :=
  (fold_left dedupe_step out (∅, [])).2.

(** Lines 25-46 of [_extract_list]: the list [out] before deduplication. *)
Definition extract_list_scan (object_info : list (pyval * pyval))
    (keys : list string) (debug_info : option (list debug_record))
  : extraction :=
  fold_left
    (fun st item => scan_component keys item.1 item.2 st)
    object_info ([], debug_info).

(** [_extract_list(object_info, keys, debug_info)]: the returned list and
    the appended-to [debug_info]. *)
Definition _extract_list (object_info : list (pyval * pyval))
    (keys : list string) (debug_info : option (list debug_record))
  : extraction :=
  let st := extract_list_scan object_info keys debug_info in
  (dedupe st.1, st.2).

(** Lines 60-80: one component in [_extract_loras]. *)
Definition scan_lora_component (key spec : pyval) (st : extraction)
  : extraction :=
  match key with
  | PStr name =>
      if contains (lower name) "lora" then
        match required_optional spec with
        | None => st
        | Some (req, opt) =>
            scan_field key "lora_name"
              (py_or (dict_get req "lora_name") (dict_get opt "lora_name")) st
        end
      else st
  | _ => st
  end.

Definition extract_loras_scan (object_info : list (pyval * pyval))
    (debug_info : option (list debug_record)) : extraction :=
  fold_left
    (fun st item => scan_lora_component item.1 item.2 st)
    object_info ([], debug_info).

(** [_extract_loras(object_info, debug_info)] *)
Definition _extract_loras (object_info : list (pyval * pyval))
    (debug_info : option (list debug_record)) : extraction :=
  let st := extract_loras_scan object_info debug_info in
  (dedupe st.1, st.2).

(** ** The catalog *)

(** The dictionary built by [_build_catalog]; [extraction_debug] is the key
    that is present only when [debug] is set. *)
Record catalog := {
  ts : Z;
  models_all : list string;
  models_ckpt : list string;
  models_unet : list string;
  loras : list string;
  vae : list string;
  samplers : list string;
  schedulers : list string;
  extraction_debug : option (list debug_record)
}.

(** [_build_catalog(object_info, debug)], given the reading [now] that
    [time.time()] returns when the dictionary is built.  The seven
    extractions share one [debug_info] list. *)
Definition _build_catalog (now : Z) (object_info : list (pyval * pyval))
    (debug : bool) : catalog :=
  let debug_info := if debug then Some [] else None in
  let r_all :=
    _extract_list object_info ["unet_name"; "ckpt_name"; "model_name"] debug_info in
  let r_ckpt := _extract_list object_info ["ckpt_name"; "model_name"] r_all.2 in
  let r_unet := _extract_list object_info ["unet_name"] r_ckpt.2 in
  let r_loras := _extract_loras object_info r_unet.2 in
  let r_vae := _extract_list object_info ["vae_name"; "vae"] r_loras.2 in
  let r_samplers := _extract_list object_info ["sampler_name"] r_vae.2 in
  let r_schedulers := _extract_list object_info ["scheduler"] r_samplers.2 in
  {| ts := now;
     models_all := r_all.1;
     models_ckpt := r_ckpt.1;
     models_unet := r_unet.1;
     loras := r_loras.1;
     vae := r_vae.1;
     samplers := r_samplers.1;
     schedulers := r_schedulers.1;
     extraction_debug := if debug then r_schedulers.2 else None |}.

(** ** Exceptions *)

(** The exceptions the handlers can meet; all are subclasses of
    [Exception]. *)
Inductive exn : Type :=
| ImportError (msg : string)
| ValueError (msg : string)
| OSError (msg : string)
| IndexError (msg : string)
| RuntimeError (msg : string).

(** [str(e)] *)
Definition exn_message (e : exn) : string :=
  match e with
  | ImportError m | ValueError m | OSError m | IndexError m
  | RuntimeError m => m
  end.

(** Computations that return or raise. *)
Definition raising (A : Type) : Type := exn + A.

Definition ret {A : Type} (a : A) : raising A := inr a.

Definition bind {A B : Type} (m : raising A) (k : A -> raising B)
  : raising B :=
  match m with
  | inl e => inl e
  | inr a => k a
  end.

Notation "'let!' x ':=' m 'in' k" := (bind m (fun x => k))
  (at level 10, x name, k at level 200).

(** ** The catalog endpoint *)

(** Environment-style configuration, lines 17-20. *)
Record config := {
  CACHE_TTL : Z;
  JPEG_QUALITY : Z;
  DELETE_AFTER_SEND : bool
}.

(** A class of [NODE_CLASS_MAPPINGS], as far as line 173 can tell. *)
Inductive node_class : Type :=
| NoInputTypes                  (* not hasattr(cls, "INPUT_TYPES") *)
| InputTypes (inp : pyval)      (* cls.INPUT_TYPES() returns inp *)
| InputTypesRaises.             (* cls.INPUT_TYPES() raises *)

Record sample_input := { si_node : string; si_input : pyval }.

(** [d[k] = v] *)
Fixpoint dict_set (d : list (pyval * pyval)) (k : string) (v : pyval)
  : list (pyval * pyval) :=
  match d with
  | [] => [(PStr k, v)]
  | (PStr k', v') :: d' =>
      if String.eqb k' k then (PStr k', v) :: d'
      else (PStr k', v') :: dict_set d' k v
  | e :: d' => e :: dict_set d' k v
  end.

(** Lines 171-179: one iteration of the loop over [NCM.items()]. *)
Definition snapshot_step
    (acc : list (pyval * pyval) * list sample_input)
    (item : string * node_class)
  : list (pyval * pyval) * list sample_input :=
  let inp :=
    match item.2 with
    | NoInputTypes => Some (PDict [])
    | InputTypes v => Some v
    | InputTypesRaises => None
    end in
  match inp with
  | None => acc
  | Some inp =>
      (dict_set acc.1 item.1 (PDict [(PStr "input", inp)]),
       if (length acc.2 <? 3)%nat && truthy inp
       then acc.2 ++ [{| si_node := item.1; si_input := inp |}]
       else acc.2)
  end.

(** Lines 169-179: [object_info] and [sample_inputs]. *)
Definition snapshot (NCM : list (string * node_class))
  : list (pyval * pyval) * list sample_input :=
  fold_left snapshot_step NCM ([], []).

(** [_catalog_cache] *)
Record cache_entry := {
  cache_ts : Z;
  cache_data : option catalog
}.

(** The state the catalog handler works on: the global [_catalog_cache],
    how many times [time.time()] has been read, and how many times the
    registry has been asked for a snapshot (the rebuild path entered). *)
Record server_state := {
  catalog_cache : cache_entry;
  clock_reads : nat;
  provider_calls : nat
}.

(** Line 16. *)
Definition initial_state : server_state :=
  {| catalog_cache := {| cache_ts := 0; cache_data := None |};
     clock_reads := 0;
     provider_calls := 0 |}.

(** [request.query.get(k, default)] *)
Fixpoint query_get (query : list (string * string)) (k default : string)
  : string :=
  match query with
  | [] => default
  | (k', v) :: q => if String.eqb k' k then v else query_get q k default
  end.

(** [request.query.get(name, "0") == "1"] *)
Definition query_flag (query : list (string * string)) (name : string)
  : bool :=
  String.eqb (query_get query name "0") "1".

(** The body of a [web.json_response] of the catalog handler. *)
Inductive catalog_response : Type :=
| CatalogOk (node_count : option nat)
            (sample_inputs : option (list sample_input))
            (body : catalog)                      (* 200, ok: true *)
| CatalogError (error : string).                  (* 500, ok: false *)

(** Lines 166-197: the rebuild path of [flowlite_catalog], entered at the
    reading [now]; the two [_build_catalog] calls read the clock again. *)
Definition rebuild_catalog (clock : nat -> Z)
    (nodes : raising (list (string * node_class))) (debug : bool) (now : Z)
    (st : server_state) : catalog_response * server_state :=
  match nodes with
  | inl e =>
      (CatalogError (exn_message e),
       {| catalog_cache := catalog_cache st;
          clock_reads := S (clock_reads st);
          provider_calls := S (provider_calls st) |})
  | inr NCM =>
      let object_info := (snapshot NCM).1 in
      let sample_inputs := (snapshot NCM).2 in
      let catalog :=
        _build_catalog (clock (S (clock_reads st))) object_info debug in
      let cached :=
        _build_catalog (clock (S (S (clock_reads st)))) object_info false in
      (if debug
       then CatalogOk (Some (length NCM)) (Some sample_inputs) catalog
       else CatalogOk None None catalog,
       {| catalog_cache := {| cache_ts := now; cache_data := Some cached |};
          clock_reads := S (S (S (clock_reads st)));
          provider_calls := S (provider_calls st) |})
  end.

(** Line 163: [not refresh and _catalog_cache["data"] and
    (now - _catalog_cache["ts"]) < CACHE_TTL]; a catalog is a non-empty
    dictionary, hence true. *)
Definition cache_hit (cfg : config) (refresh : bool) (now : Z)
    (cache : cache_entry) : option catalog :=
  match cache_data cache with
  | Some data =>
      if negb refresh && (now - cache_ts cache <? CACHE_TTL cfg)%Z
      then Some data else None
  | None => None
  end.

(** [flowlite_catalog(request)].  [clock n] is the (n+1)-th reading of
    [time.time()] in the process, and [nodes] what [from nodes import
    NODE_CLASS_MAPPINGS] gives at this request. *)
Definition flowlite_catalog (cfg : config) (clock : nat -> Z)
    (nodes : raising (list (string * node_class)))
    (query : list (string * string)) (st : server_state)
  : catalog_response * server_state :=
  let refresh := query_flag query "refresh" in
  let debug := query_flag query "debug" in
  let now := clock (clock_reads st) in
  match cache_hit cfg refresh now (catalog_cache st) with
  | Some data =>
      (CatalogOk None None data,
       {| catalog_cache := catalog_cache st;
          clock_reads := S (clock_reads st);
          provider_calls := provider_calls st |})
  | None => rebuild_catalog clock nodes debug now st
  end.

(** One request to the catalog endpoint: what the registry import gives at
    that moment, and the query string. *)
Record catalog_call := {
  call_nodes : raising (list (string * node_class));
  call_query : list (string * string)
}.

(** The requests of [calls] served one after the other: the responses, and
    the state left. *)
Fixpoint serve (cfg : config) (clock : nat -> Z) (calls : list catalog_call)
    (st : server_state) : list catalog_response * server_state :=
  match calls with
  | [] => ([], st)
  | call :: calls' =>
      let r := flowlite_catalog cfg clock (call_nodes call) (call_query call) st in
      let rs := serve cfg clock calls' r.2 in
      (r.1 :: rs.1, rs.2)
  end.

(** The cached entry carries no diagnostic records. *)
Definition cache_clean (st : server_state) : Prop :=
  ∀ data, cache_data (catalog_cache st) = Some data →
          extraction_debug data = None.

(** Two catalogs with the same seven lists. *)
Definition same_lists (a b : catalog) : Prop :=
  models_all a = models_all b ∧ models_ckpt a = models_ckpt b ∧
  models_unet a = models_unet b ∧ loras a = loras b ∧ vae a = vae b ∧
  samplers a = samplers b ∧ schedulers a = schedulers b.

(** ** The image transcoder *)

(** A decoded PIL image: its mode, its size and its pixel data. *)
Record image := {
  img_mode : string;
  img_size : Z * Z;
  img_pixels : list byte
}.

(** The part of the PIL [Image] module that [_compress_to_jpeg] calls.
    Every call may raise. *)
Record pil_module := {
  (* Image.open(io.BytesIO(data)) *)
  Image_open : list byte -> raising image;
  (* Image.new("RGB", size, (255, 255, 255)) *)
  Image_new_white : Z * Z -> raising image;
  (* img.convert(mode) *)
  Image_convert : image -> string -> raising image;
  (* img.split() *)
  Image_split : image -> raising (list image);
  (* background.paste(img, mask=mask): the background after the paste *)
  Image_paste : image -> image -> option image -> raising image;
  (* img.save(output, format="JPEG", quality=quality, optimize=True);
     output.getvalue() *)
  Image_save_jpeg : image -> Z -> raising (list byte)
}.

(** [mode in ("RGBA", "LA", "P")] and the like. *)
Definition mode_in (mode : string) (modes : list string) : bool :=
  existsb (String.eqb mode) modes.

(** [bands[-1]] *)
Definition last_band (bands : list image) : raising image :=
  match last bands with
  | Some b => ret b
  | None => inl (IndexError "tuple index out of range")
  end.

(** Lines 121-136: the body of the second [try]. *)
Definition jpeg_body (PIL : pil_module) (data : list byte) (quality : Z)
  : raising (list byte * string) :=
  let! img := Image_open PIL data in
  let! img :=
    (if mode_in (img_mode img) ["RGBA"; "LA"; "P"] then
       let! background := Image_new_white PIL (img_size img) in
       let! img :=
         (if String.eqb (img_mode img) "P"
          then Image_convert PIL img "RGBA" else ret img) in
       if mode_in (img_mode img) ["RGBA"; "LA"] then
         let! bands := Image_split PIL img in
         let! mask := last_band bands in
         Image_paste PIL background img (Some mask)
       else Image_paste PIL background img None
     else if negb (String.eqb (img_mode img) "RGB")
     then Image_convert PIL img "RGB"
     else ret img) in
  let! output := Image_save_jpeg PIL img quality in
  ret (output, "image/jpeg").

(** [_compress_to_jpeg(data, quality)], given what [from PIL import Image]
    does in this runtime.  [except ImportError] catches an [ImportError]
    only; [except Exception] catches everything. *)
Definition _compress_to_jpeg (import_PIL : raising pil_module)
    (data : list byte) (quality : Z) : raising (list byte * string) :=
  match import_PIL with
  | inl (ImportError _) => ret (data, "image/png")
  | inl e => inl e
  | inr PIL =>
      match jpeg_body PIL data quality with
      | inr result => ret result
      | inl _ => ret (data, "image/png")
      end
  end.

(** ** Paths and files *)

(** [posixpath.join] of two parts. *)
Definition join2 (path b : string) : string :=
  if startswith b "/" then b
  else if String.eqb path "" || endswith path "/" then path +:+ b
  else path +:+ "/" +:+ b.

(** [os.path.join(a, *p)] *)
Definition os_path_join (a : string) (p : list string) : string :=
  fold_left join2 p a.

(** A file of the host: its contents and whether the process may read and
    remove it. *)
Record file := {
  file_content : list byte;
  file_readable : bool;
  file_removable : bool
}.

Inductive fs_node : Type :=
| RegularFile (f : file)
| Directory.

(** What [folder_paths], [os.path] and PIL are in the host process. *)
Record host := {
  get_output_directory : string;
  get_input_directory : string;
  get_temp_directory : string;
  (* os.path.realpath on the host's directory tree *)
  realpath : string -> string;
  (* from PIL import Image *)
  import_PIL : raising pil_module
}.

(** The accesses to the file system a request makes, in order. *)
Inductive fs_event : Type :=
| EvExists (path : string)
| EvRead (path : string)
| EvRemove (path : string).

(** ** The image endpoint *)

(** What the image handler does with a request. *)
Inductive image_response : Type :=
(* web.json_response({"error": error}, status=status) *)
| JsonError (status : Z) (error : string)
(* web.Response(body, content_type, headers): X-Original-Size,
   X-Compressed-Size and X-Deleted *)
| ImageBody (body : list byte) (content_type : string)
            (original_size compressed_size : nat) (deleted : bool)
(* an exception leaves the handler *)
| Unhandled (e : exn).

Fixpoint query_lookup (query : list (string * string)) (k : string)
  : option string :=
  match query with
  | [] => None
  | (k', v) :: q => if String.eqb k' k then Some v else query_lookup q k
  end.

Definition digit_value (c : ascii) : option Z :=
  let n := nat_of_ascii c in
  if ((48 <=? n) && (n <=? 57))%nat then Some (Z.of_nat (n - 48)) else None.

(** Decimal digits with single underscores between them. *)
Fixpoint parse_digits (s : string) (acc : Z) (after_digit : bool)
  : option Z :=
  match s with
  | EmptyString => if after_digit then Some acc else None
  | String c s' =>
      if Ascii.eqb c "_" then
        if after_digit then parse_digits s' acc false else None
      else
        match digit_value c with
        | Some d => parse_digits s' (10 * acc + d)%Z true
        | None => None
        end
  end.

(** [int(s)] on a string of ASCII characters. *)
Definition py_int (s : string) : raising Z :=
  let parsed :=
    match strip s with
    | String "+" r => parse_digits r 0%Z false
    | String "-" r => Z.opp <$> parse_digits r 0%Z false
    | r => parse_digits r 0%Z false
    end in
  match parsed with
  | Some n => ret n
  | None =>
      inl (ValueError
             ("invalid literal for int() with base 10: '" +:+ s +:+ "'"))
  end.

(** The PNG signature, [b'\x89PNG\r\n\x1a\n']. *)
Definition png_signature : list byte :=
  [x89; x50; x4e; x47; x0d; x0a; x1a; x0a].

(** [a == b] on byte strings. *)
Fixpoint bytes_eqb (a b : list byte) : bool :=
  match a, b with
  | [], [] => true
  | x :: a', y :: b' => Byte.eqb x y && bytes_eqb a' b'
  | _, _ => false
  end.

(** Lines 215-222: the base directory of a [type]. *)
Definition base_dir_of (h : host) (img_type : string) : string :=
  if String.eqb img_type "output" then get_output_directory h
  else if String.eqb img_type "input" then get_input_directory h
  else if String.eqb img_type "temp" then get_temp_directory h
  else get_output_directory h.

(** Lines 224-232: the resolved path, or [None] where the handler answers
    403. *)
Definition resolve_path (h : host) (base_dir subfolder filename : string)
  : option string :=
  let full_path :=
    if negb (String.eqb subfolder "")
    then os_path_join base_dir [subfolder; filename]
    else os_path_join base_dir [filename] in
  let full_path := realpath h full_path in
  let base_real := realpath h base_dir in
  if negb (startswith full_path base_real) then None else Some full_path.

(** Line 244: [filename.lower().endswith(".png") or data[:8] == b'...']. *)
Definition looks_like_png (filename : string) (data : list byte) : bool :=
  endswith (lower filename) ".png" || bytes_eqb (take 8 data) png_signature.

(** Lines 255-262: the deletion of the source file. *)
Definition delete_source (delete_after was_compressed : bool)
    (full_path : string) (fs : gmap string fs_node)
  : bool * gmap string fs_node * list fs_event :=
  if delete_after && was_compressed then
    match fs !! full_path with
    | Some (RegularFile f) =>
        if file_removable f
        then (true, delete full_path fs, [EvExists full_path; EvRemove full_path])
        else (false, fs, [EvExists full_path; EvRemove full_path])
    | Some Directory =>
        (false, fs, [EvExists full_path; EvRemove full_path])
    | None => (false, fs, [EvExists full_path])
    end
  else (false, fs, []).

(** Lines 234-272: from the existence test to the response. *)
Definition send_file (h : host) (filename full_path : string)
    (compress delete_after : bool) (quality : Z) (fs : gmap string fs_node)
  : image_response * gmap string fs_node * list fs_event :=
  match fs !! full_path with
  | None => (JsonError 404 "File not found", fs, [EvExists full_path])
  | Some Directory =>
      (JsonError 500 ("Is a directory: " +:+ full_path), fs,
       [EvExists full_path; EvRead full_path])
  | Some (RegularFile f) =>
      if negb (file_readable f) then
        (JsonError 500 ("Permission denied: " +:+ full_path), fs,
         [EvExists full_path; EvRead full_path])
      else
        let data := file_content f in
        let original_size := length data in
        let transcoded :=
          if compress && looks_like_png filename data
          then
            let! r := _compress_to_jpeg (import_PIL h) data quality in
            ret (r.1, r.2, true)
          else ret (data, "image/png", false) in
        match transcoded with
        | inl e =>
            (JsonError 500 (exn_message e), fs,
             [EvExists full_path; EvRead full_path])
        | inr (data, content_type, was_compressed) =>
            let '(deleted, fs', evs) :=
              delete_source delete_after was_compressed full_path fs in
            (ImageBody data content_type original_size (length data) deleted,
             fs', [EvExists full_path; EvRead full_path] ++ evs)
        end
  end.

(** Line 208: [int(request.query.get("quality", str(JPEG_QUALITY)))]. *)
Definition request_quality (cfg : config) (query : list (string * string))
  : raising Z :=
  match query_lookup query "quality" with
  | Some q => py_int q
  | None => ret (JPEG_QUALITY cfg)
  end.

(** [flowlite_image(request)]: the response, the file system afterwards and
    the accesses made to it. *)
Definition flowlite_image (cfg : config) (h : host)
    (query : list (string * string)) (fs : gmap string fs_node)
  : image_response * gmap string fs_node * list fs_event :=
  let filename := query_get query "filename" "" in
  let subfolder := query_get query "subfolder" "" in
  let img_type := query_get query "type" "output" in
  let compress := String.eqb (query_get query "compress" "1") "1" in
  let delete_after :=
    String.eqb
      (query_get query "delete" (if DELETE_AFTER_SEND cfg then "1" else "0"))
      "1" in
  match request_quality cfg query with
  | inl e => (Unhandled e, fs, [])
  | inr quality =>
      let quality := Z.max 1 (Z.min 100 quality) in
      if String.eqb filename "" then
        (JsonError 400 "filename required", fs, [])
      else
        let base_dir := base_dir_of h img_type in
        match resolve_path h base_dir subfolder filename with
        | None => (JsonError 403 "Invalid path", fs, [])
        | Some full_path =>
            send_file h filename full_path compress delete_after quality fs
        end
  end.

(** ** Canonical paths on a tree without symbolic links *)

(** [s.split("/")] *)
Fixpoint split_slash (s : string) : list string :=
  match s with
  | EmptyString => [EmptyString]
  | String c s' =>
      if Ascii.eqb c "/" then EmptyString :: split_slash s'
      else
        match split_slash s' with
        | name :: rest => String c name :: rest
        | [] => [String c EmptyString]
        end
  end.

(** One name of the path in [os.path.realpath] when [os.lstat] never
    reports a link: empty names and [.] are skipped, [..] drops the last
    name (the root is its own parent), any other name is appended. *)
Definition realpath_step (stack : list string) (name : string)
  : list string :=
  if String.eqb name "" || String.eqb name "." then stack
  else if String.eqb name ".." then removelast stack
  else stack ++ [name].

(** The absolute path with the given names. *)
Definition absolute (names : list string) : string :=
  "/" +:+ String.concat "/" names.

(** [os.path.realpath] on a directory tree without symbolic links, for a
    process whose working directory has the names [cwd]. *)
Definition lexical_realpath (cwd : list string) (path : string) : string :=
  absolute
    (fold_left realpath_step (split_slash path)
       (if startswith path "/" then [] else cwd)).

(** A name of a directory entry: not empty, not [.] or [..], no [/]. *)
Definition plain_name (name : string) : Prop :=
  name ≠ "" ∧ name ≠ "." ∧ name ≠ ".." ∧
  ∀ c, c ∈ list_ascii_of_string name → c ≠ "/"%char.

(** [path] is [base] or lies below it, both being canonical. *)
Definition within (base path : string) : Prop :=
  path = base ∨ base = "/" ∨ String.prefix (base +:+ "/") path = true.

(** ** What the extractors collect, component by component *)

(** The strings a choice list offers: stripped, blanks and non-strings
    dropped. *)
Definition choice_strings (items : list pyval) : list string :=
  flat_map
    (fun item =>
       match item with
       | PStr s => if String.eqb (strip s) "" then [] else [strip s]
       | _ => []
       end)
    items.

(** The strings of one FieldSpec, empty unless it has the choice-list
    shape. *)
Definition field_choices (lspec : pyval) : list string :=
  if truthy lspec then
    match as_sequence lspec with
    | Some (first :: _) =>
        match as_sequence first with
        | Some items => choice_strings items
        | None => []
        end
    | _ => []
    end
  else [].

(** The FieldSpec a key selects in a component: the entry of [required]
    when it is true, else the entry of [optional]. *)
Definition selected_field (req opt : list (pyval * pyval)) (k : string)
  : pyval :=
  py_or (dict_get req k) (dict_get opt k).

(** The strings one component offers for [keys]: those of every key, in the
    order of [keys]. *)
Definition component_candidates (keys : list string) (spec : pyval)
  : list string :=
  match required_optional spec with
  | None => []
  | Some (req, opt) =>
      flat_map (fun k => field_choices (selected_field req opt k)) keys
  end.

(** All candidates in registry-iteration order. *)
Definition candidates (object_info : list (pyval * pyval))
    (keys : list string) : list string :=
  flat_map (fun item => component_candidates keys item.2) object_info.

Definition is_lora_component (key : pyval) : bool :=
  match key with
  | PStr name => contains (lower name) "lora"
  | _ => false
  end.

Definition lora_candidates (object_info : list (pyval * pyval))
  : list string :=
  flat_map
    (fun item =>
       if is_lora_component item.1
       then component_candidates ["lora_name"] item.2 else [])
    object_info.

(** [out] lists the distinct elements of [src] in the order of their first
    occurrence in [src]. *)
Definition first_seen_order (src out : list string) : Prop :=
  NoDup out ∧
  (∀ x, x ∈ out ↔ x ∈ src) ∧
  ∀ i j x y, i < j → out !! i = Some x → out !! j = Some y →
    ∃ p, src !! p = Some x ∧ ∀ q, src !! q = Some y → p < q.

(** The single-match reading of the extractor: in each component only the
    first key of [keys] that selects a true FieldSpec is used, and later
    keys are not looked at. *)
Fixpoint first_match_candidates (req opt : list (pyval * pyval))
    (keys : list string) : list string :=
  match keys with
  | [] => []
  | k :: keys' =>
      if truthy (selected_field req opt k)
      then field_choices (selected_field req opt k)
      else first_match_candidates req opt keys'
  end.

Definition single_match_extract (object_info : list (pyval * pyval))
    (keys : list string) : list string :=
  dedupe
    (flat_map
       (fun item =>
          match required_optional item.2 with
          | None => []
          | Some (req, opt) => first_match_candidates req opt keys
          end)
       object_info).

(** ** A small registry, for the examples *)

(** A FieldSpec with the choice-list shape. *)
Definition choice (names : list string) : pyval :=
  PList [PList (PStr <$> names)].

(** What an [INPUT_TYPES()] with the given maps returns. *)
Definition input_types (required optional : list (pyval * pyval)) : pyval :=
  PDict [(PStr "required", PDict required); (PStr "optional", PDict optional)].

(** A ComponentSpec with the given [required] and [optional] maps. *)
Definition component (required optional : list (pyval * pyval)) : pyval :=
  PDict [(PStr "input", input_types required optional)].

(** A loader that takes both a UNet and a checkpoint. *)
Definition dual_loader : pyval * pyval :=
  (PStr "DualModelLoader",
   component [(PStr "unet_name", choice ["flux-dev"]);
              (PStr "ckpt_name", choice ["sdxl-base"])] []).

Definition demo_registry : list (pyval * pyval) :=
  [ (PStr "CheckpointLoaderSimple",
     component [(PStr "ckpt_name", choice ["sd15"; " sdxl-base "; "sd15"])] []);
    (PStr "UNETLoader",
     component [(PStr "unet_name", choice ["flux-dev"; "flux-schnell"]);
                (PStr "weight_dtype", choice ["default"; "fp8"])] []);
    dual_loader;
    (PStr "LoraLoader",
     component [(PStr "model", PTuple [PStr "MODEL"]);
                (PStr "lora_name", choice ["detail"; "detail"; "  "])]
               []);
    (PStr "KSampler",
     component [(PStr "steps", PTuple [PStr "INT"; PDict [(PStr "default", PInt 20)]]);
                (PStr "sampler_name", choice ["euler"; "dpmpp_2m"]);
                (PStr "scheduler", choice ["normal"; "karras"])]
               [(PStr "vae", choice ["vae-ft-mse"])]);
    (PStr "Broken", PStr "not a dict") ].

(** A small [NODE_CLASS_MAPPINGS]. *)
Definition demo_NCM : list (string * node_class) :=
  [ ("CheckpointLoaderSimple",
     InputTypes (input_types [(PStr "ckpt_name", choice ["sd15"; "sdxl-base"])] []));
    ("PreviewAny", NoInputTypes);
    ("Flaky", InputTypesRaises);
    ("LoraLoader",
     InputTypes (input_types [(PStr "lora_name", choice ["detail"])] [])) ].

(** Thirty seconds of time to live, in milliseconds. *)
Definition demo_config : config :=
  {| CACHE_TTL := 30000; JPEG_QUALITY := 85; DELETE_AFTER_SEND := true |}.

(** A clock that advances by one millisecond at each reading. *)
Definition demo_clock (n : nat) : Z := 1700000000000 + Z.of_nat n.

(** ** A small host, for the examples *)

(** A codec that decodes what starts with the PNG signature, as an RGBA
    image of 2 by 2 pixels, and encodes RGB images only. *)
Definition toy_PIL : pil_module :=
  {| Image_open := fun data =>
       if bytes_eqb (take 8 data) png_signature
       then ret {| img_mode := "RGBA"; img_size := (2, 2)%Z;
                   img_pixels := drop 8 data |}
       else inl (OSError "cannot identify image file");
     Image_new_white := fun size =>
       ret {| img_mode := "RGB"; img_size := size; img_pixels := [] |};
     Image_convert := fun img mode =>
       ret {| img_mode := mode; img_size := img_size img;
              img_pixels := img_pixels img |};
     Image_split := fun img =>
       ret (replicate (String.length (img_mode img))
              {| img_mode := "L"; img_size := img_size img;
                 img_pixels := img_pixels img |});
     Image_paste := fun background img mask =>
       ret {| img_mode := img_mode background;
              img_size := img_size background;
              img_pixels := img_pixels img |};
     Image_save_jpeg := fun img quality =>
       if String.eqb (img_mode img) "RGB"
       then ret ([xff; xd8] ++ img_pixels img ++ [xff; xd9])
       else inl (OSError "cannot write mode as JPEG") |}.

(** A host with the three directories under [/data], no symbolic links,
    and the codec above. *)
Definition demo_host : host :=
  {| get_output_directory := "/data/output";
     get_input_directory := "/data/input";
     get_temp_directory := "/data/temp";
     realpath := lexical_realpath ["srv"; "comfy"];
     import_PIL := inr toy_PIL |}.

(** The same host in a runtime without PIL. *)
Definition bare_host : host :=
  {| get_output_directory := "/data/output";
     get_input_directory := "/data/input";
     get_temp_directory := "/data/temp";
     realpath := lexical_realpath ["srv"; "comfy"];
     import_PIL := inl (ImportError "No module named 'PIL'") |}.

Definition plain_file (content : list byte) : fs_node :=
  RegularFile {| file_content := content; file_readable := true;
                 file_removable := true |}.

(** A PNG of four bytes of pixel data. *)
Definition tiny_png : list byte := png_signature ++ [x01; x02; x03; x04].

(** Bytes that no codec decodes. *)
Definition corrupt_bytes : list byte := [xde; xad; xbe; xef].

Definition demo_fs : gmap string fs_node :=
  {[ "/data/output/render.png" := plain_file tiny_png;
     "/data/output/broken.png" := plain_file corrupt_bytes;
     "/data/output/notes.txt" := plain_file [x68; x69];
     "/data/output/secret" := plain_file [x2a];
     "/data/output_private/key.png" := plain_file [x6b; x65; x79] ]}.


(** The path an access is made to. *)
Definition event_path (ev : fs_event) : string :=
  match ev with
  | EvExists path | EvRead path | EvRemove path => path
  end.

(** The request parameters of [flowlite_image], lines 203-207. *)
Definition request_filename (query : list (string * string)) : string :=
  query_get query "filename" "".

Definition request_subfolder (query : list (string * string)) : string :=
  query_get query "subfolder" "".

Definition request_type (query : list (string * string)) : string :=
  query_get query "type" "output".

Definition request_compress (query : list (string * string)) : bool :=
  String.eqb (query_get query "compress" "1") "1".

Definition request_delete (cfg : config) (query : list (string * string))
  : bool :=
  String.eqb
    (query_get query "delete" (if DELETE_AFTER_SEND cfg then "1" else "0"))
    "1".

(** The path a request resolves to, lines 215-232. *)
Definition request_path (h : host) (query : list (string * string))
  : option string :=
  resolve_path h (base_dir_of h (request_type query))
    (request_subfolder query) (request_filename query).

(** The cached entry, if any, was stamped with a reading of the clock that
    the process made earlier. *)
Definition entry_stamped (clock : nat -> Z) (st : server_state) : Prop :=
  ∀ data, cache_data (catalog_cache st) = Some data →
          ∃ n, (n < clock_reads st)%nat ∧ cache_ts (catalog_cache st) = clock n.

(** The cached entry, if any, is younger than the time to live at the next
    reading of the clock. *)
Definition entry_fresh (cfg : config) (clock : nat -> Z) (st : server_state)
  : Prop :=
  ∃ data, cache_data (catalog_cache st) = Some data ∧
          (clock (clock_reads st) - cache_ts (catalog_cache st)
             < CACHE_TTL cfg)%Z.



(** * Properties *)

(** ** The extraction loops collect the candidates *)

Lemma fold_left_snoc {A B : Type} (f : A → B → A) (l : list B) (x : B) (a : A) :
  fold_left f (l ++ [x]) a = f (fold_left f l a) x.
Proof. by rewrite fold_left_app. Qed.

Lemma append_choices_app (items : list pyval) (out : list string) :
  append_choices items out = out ++ choice_strings items.
Proof.
  unfold append_choices, choice_strings.
  revert out. induction items as [|item items IH]; intros out; simpl.
  - by rewrite app_nil_r.
  - rewrite IH. destruct item; try done.
    destruct (String.eqb (strip s) ""); [done|].
    by rewrite <- app_assoc.
Qed.

Lemma scan_field_out (node_name : pyval) (k : string) (lspec : pyval)
    (st : extraction) :
  (scan_field node_name k lspec st).1 = st.1 ++ field_choices lspec.
Proof.
  unfold scan_field, field_choices.
  destruct (truthy lspec); simpl; [|by rewrite app_nil_r].
  destruct (as_sequence lspec) as [[|first rest]|]; simpl;
    try by rewrite app_nil_r.
  destruct (as_sequence first); simpl; [|by rewrite app_nil_r].
  apply append_choices_app.
Qed.

Lemma scan_keys_out (node_name : pyval) (req opt : list (pyval * pyval))
    (keys : list string) (st : extraction) :
  (fold_left
     (fun st k =>
        scan_field node_name k (py_or (dict_get req k) (dict_get opt k)) st)
     keys st).1
  = st.1 ++ flat_map (fun k => field_choices (selected_field req opt k)) keys.
Proof.
  revert st. induction keys as [|k keys IH]; intros st; simpl.
  - by rewrite app_nil_r.
  - rewrite IH, scan_field_out. by rewrite <- app_assoc.
Qed.

Lemma scan_component_out (keys : list string) (node_name spec : pyval)
    (st : extraction) :
  (scan_component keys node_name spec st).1
  = st.1 ++ component_candidates keys spec.
Proof.
  unfold scan_component, component_candidates.
  destruct (required_optional spec) as [[req opt]|].
  - apply scan_keys_out.
  - by rewrite app_nil_r.
Qed.

Lemma extract_list_scan_from (object_info : list (pyval * pyval))
    (keys : list string) (st : extraction) :
  (fold_left (fun st item => scan_component keys item.1 item.2 st)
     object_info st).1
  = st.1 ++ candidates object_info keys.
Proof.
  unfold candidates.
  revert st. induction object_info as [|item oi IH]; intros st; simpl.
  - by rewrite app_nil_r.
  - rewrite IH, scan_component_out. by rewrite <- app_assoc.
Qed.

Lemma extract_list_scan_out (object_info : list (pyval * pyval))
    (keys : list string) (debug_info : option (list debug_record)) :
  (extract_list_scan object_info keys debug_info).1
  = candidates object_info keys.
Proof. unfold extract_list_scan. by rewrite extract_list_scan_from. Qed.

Lemma scan_lora_component_out (key spec : pyval) (st : extraction) :
  (scan_lora_component key spec st).1
  = st.1 ++ (if is_lora_component key
             then component_candidates ["lora_name"] spec else []).
Proof.
  unfold scan_lora_component, is_lora_component, component_candidates.
  destruct key; try by rewrite app_nil_r.
  destruct (contains (lower s) "lora"); [|by rewrite app_nil_r].
  destruct (required_optional spec) as [[req opt]|]; [|by rewrite app_nil_r].
  rewrite scan_field_out. simpl. by rewrite app_nil_r.
Qed.

Lemma extract_loras_scan_from (object_info : list (pyval * pyval))
    (st : extraction) :
  (fold_left (fun st item => scan_lora_component item.1 item.2 st)
     object_info st).1
  = st.1 ++ lora_candidates object_info.
Proof.
  unfold lora_candidates.
  revert st. induction object_info as [|item oi IH]; intros st; simpl.
  - by rewrite app_nil_r.
  - rewrite IH, scan_lora_component_out. by rewrite <- app_assoc.
Qed.

Lemma extract_loras_scan_out (object_info : list (pyval * pyval))
    (debug_info : option (list debug_record)) :
  (extract_loras_scan object_info debug_info).1 = lora_candidates object_info.
Proof. unfold extract_loras_scan. by rewrite extract_loras_scan_from. Qed.

Lemma extract_list_out (object_info : list (pyval * pyval))
    (keys : list string) (debug_info : option (list debug_record)) :
  (_extract_list object_info keys debug_info).1
  = dedupe (candidates object_info keys).
Proof. unfold _extract_list. simpl. by rewrite extract_list_scan_out. Qed.

Lemma extract_loras_out (object_info : list (pyval * pyval))
    (debug_info : option (list debug_record)) :
  (_extract_loras object_info debug_info).1
  = dedupe (lora_candidates object_info).
Proof. unfold _extract_loras. simpl. by rewrite extract_loras_scan_out. Qed.

(** ** Deduplication keeps first occurrences *)

Lemma first_seen_order_nil : first_seen_order [] [].
Proof.
  split; [constructor|]. split; [done|].
  intros i j x y _ Hi. by rewrite lookup_nil in Hi.
Qed.

(** A repeated element changes nothing. *)
Lemma first_seen_order_seen (src out : list string) (x : string) :
  first_seen_order src out → x ∈ src → first_seen_order (src ++ [x]) out.
Proof.
  intros (Hnd & Hin & Hord) Hx. split; [done|]. split.
  - intros y. rewrite Hin. set_solver.
  - intros i j a b Hij Ha Hb.
    destruct (Hord i j a b Hij Ha Hb) as (p & Hp & Hfirst).
    exists p. split.
    + by apply lookup_app_l_Some.
    + intros q Hq. apply lookup_app_Some in Hq as [Hq | [Hlen Hq]].
      * by apply Hfirst.
      * apply lookup_lt_Some in Hp. lia.
Qed.

(** A new element goes to the end. *)
Lemma first_seen_order_new (src out : list string) (x : string) :
  first_seen_order src out → x ∉ src →
  first_seen_order (src ++ [x]) (out ++ [x]).
Proof.
  intros (Hnd & Hin & Hord) Hx. split; [|split].
  - apply NoDup_app. split; [done|]. split; [|apply NoDup_singleton].
    intros y Hy Hy'. apply list_elem_of_singleton in Hy' as ->.
    by apply Hx, Hin.
  - intros y. rewrite !elem_of_app, Hin. done.
  - intros i j a b Hij Ha Hb.
    assert (Hi : out !! i = Some a).
    { apply lookup_app_Some in Ha as [Ha | [Hlen Ha]]; [done|].
      apply lookup_lt_Some in Hb. rewrite length_app in Hb. simpl in Hb.
      lia. }
    apply lookup_app_Some in Hb as [Hb | [Hlen Hb]].
    + destruct (Hord i j a b Hij Hi Hb) as (p & Hp & Hfirst).
      exists p. split; [by apply lookup_app_l_Some|].
      intros q Hq. apply lookup_app_Some in Hq as [Hq | [Hlen Hq]].
      * by apply Hfirst.
      * apply lookup_lt_Some in Hp. lia.
    + apply list_lookup_singleton_Some in Hb as [_ <-].
      assert (Ha' : a ∈ src) by (apply Hin; by eapply list_elem_of_lookup_2).
      apply list_elem_of_lookup in Ha' as [p Hp].
      exists p. split; [by apply lookup_app_l_Some|].
      intros q Hq. apply lookup_app_Some in Hq as [Hq | [Hlen' Hq]].
      * exfalso. apply Hx. by eapply list_elem_of_lookup_2.
      * apply lookup_lt_Some in Hp. lia.
Qed.

Lemma dedupe_invariant (out : list string) :
  (∀ x, x ∈ (fold_left dedupe_step out (∅, [])).1 ↔ x ∈ out) ∧
  first_seen_order out (fold_left dedupe_step out (∅, [])).2.
Proof.
  induction out as [|x out [Hseen Hord]] using rev_ind.
  - simpl. split; [set_solver | apply first_seen_order_nil].
  - rewrite fold_left_snoc. unfold dedupe_step at 1 3.
    destruct (decide (x ∈ (fold_left dedupe_step out (∅, [])).1)) as [Hx|Hx];
      simpl.
    + split.
      * intros y. rewrite Hseen. apply Hseen in Hx. set_solver.
      * apply first_seen_order_seen; [done | by apply Hseen].
    + split.
      * intros y. rewrite elem_of_union, elem_of_singleton, Hseen. set_solver.
      * apply first_seen_order_new; [done|]. intros Hx'. by apply Hx, Hseen.
Qed.

Lemma dedupe_first_seen (out : list string) :
  first_seen_order out (dedupe out).
Proof. apply dedupe_invariant. Qed.

Lemma elem_of_dedupe (out : list string) (x : string) :
  x ∈ dedupe out ↔ x ∈ out.
Proof. destruct (dedupe_first_seen out) as (_ & Hin & _). apply Hin. Qed.

Lemma elem_of_flat_map {A B : Type} (f : A → list B) (l : list A) (x : B) :
  x ∈ flat_map f l ↔ ∃ y, y ∈ l ∧ x ∈ f y.
Proof.
  rewrite list_elem_of_In, in_flat_map.
  by setoid_rewrite list_elem_of_In.
Qed.

(** More keys, more candidates. *)
Lemma candidates_mono (object_info : list (pyval * pyval))
    (keys keys' : list string) (x : string) :
  keys ⊆ keys' →
  x ∈ candidates object_info keys → x ∈ candidates object_info keys'.
Proof.
  intros Hsub. unfold candidates. rewrite !elem_of_flat_map.
  intros (item & Hitem & Hx). exists item. split; [done|].
  revert Hx. unfold component_candidates.
  destruct (required_optional item.2) as [[req opt]|]; [|done].
  rewrite !elem_of_flat_map. intros (k & Hk & Hx). exists k. split; [|done].
  by apply Hsub.
Qed.

(** ** The lists of the catalog *)

Lemma build_catalog_lists (now : Z) (object_info : list (pyval * pyval))
    (debug : bool) (c : catalog) :
  c = _build_catalog now object_info debug →
  models_all c
    = dedupe (candidates object_info ["unet_name"; "ckpt_name"; "model_name"]) ∧
  models_ckpt c = dedupe (candidates object_info ["ckpt_name"; "model_name"]) ∧
  models_unet c = dedupe (candidates object_info ["unet_name"]) ∧
  loras c = dedupe (lora_candidates object_info) ∧
  vae c = dedupe (candidates object_info ["vae_name"; "vae"]) ∧
  samplers c = dedupe (candidates object_info ["sampler_name"]) ∧
  schedulers c = dedupe (candidates object_info ["scheduler"]).
Proof.
  intros ->. unfold _build_catalog.
  cbn [models_all models_ckpt models_unet loras vae samplers schedulers].
  rewrite !extract_list_out, extract_loras_out. by repeat split.
Qed.

(** C8.  For every registry snapshot and every key set, the list returned
    by [_extract_list] has no duplicates and lists the candidates in the
    order of their first occurrence across the components in registry
    iteration order; the same holds for [_extract_loras] and for each of
    the seven lists of the catalog that [_build_catalog] returns. *)
Theorem extracted_lists_first_seen (object_info : list (pyval * pyval))
    (keys : list string) (debug_info : option (list debug_record))
    (now : Z) (debug : bool) :
  first_seen_order (candidates object_info keys)
    (_extract_list object_info keys debug_info).1 ∧
  first_seen_order (lora_candidates object_info)
    (_extract_loras object_info debug_info).1 ∧
  let c := _build_catalog now object_info debug in
  first_seen_order
    (candidates object_info ["unet_name"; "ckpt_name"; "model_name"])
    (models_all c) ∧
  first_seen_order (candidates object_info ["ckpt_name"; "model_name"])
    (models_ckpt c) ∧
  first_seen_order (candidates object_info ["unet_name"]) (models_unet c) ∧
  first_seen_order (lora_candidates object_info) (loras c) ∧
  first_seen_order (candidates object_info ["vae_name"; "vae"]) (vae c) ∧
  first_seen_order (candidates object_info ["sampler_name"]) (samplers c) ∧
  first_seen_order (candidates object_info ["scheduler"]) (schedulers c).
Proof.
  split; [rewrite extract_list_out; apply dedupe_first_seen|].
  split; [rewrite extract_loras_out; apply dedupe_first_seen|].
  intros c.
  destruct (build_catalog_lists now object_info debug c eq_refl)
    as (-> & -> & -> & -> & -> & -> & ->).
  repeat split; apply dedupe_first_seen.
Qed.

(** C9.  In every catalog, a string of [models.ckpt] or of [models.unet] is
    a string of [models.all]. *)
Theorem models_all_superset (now : Z) (object_info : list (pyval * pyval))
    (debug : bool) (x : string) :
  let c := _build_catalog now object_info debug in
  x ∈ models_ckpt c ∨ x ∈ models_unet c → x ∈ models_all c.
Proof.
  intros c.
  destruct (build_catalog_lists now object_info debug c eq_refl)
    as (-> & -> & -> & _).
  rewrite !elem_of_dedupe.
  intros [Hx | Hx]; revert Hx; apply candidates_mono; set_solver.
Qed.

Lemma models_all_superset_witness :
  "flux-dev" ∈ models_unet (_build_catalog 7 demo_registry false) ∧
  "flux-dev" ∈ models_all (_build_catalog 7 demo_registry false).
Proof.
  assert (H : "flux-dev" ∈ models_unet (_build_catalog 7 demo_registry false)).
  { vm_compute. apply list_elem_of_here. }
  split; [exact H|].
  apply (models_all_superset 7 demo_registry false "flux-dev").
  right. exact H.
Defined.

(** C3 as the spec words it does not hold: a component that has both
    [unet_name] and [ckpt_name] contributes the choices of both keys, where
    the single-match reading takes those of [unet_name] only. *)
Lemma later_key_contributes :
  (_extract_list [dual_loader] ["unet_name"; "ckpt_name"; "model_name"] None).1
    = ["flux-dev"; "sdxl-base"] ∧
  single_match_extract [dual_loader] ["unet_name"; "ckpt_name"; "model_name"]
    = ["flux-dev"] ∧
  (_extract_list [dual_loader] ["unet_name"; "ckpt_name"; "model_name"] None).1
    ≠ single_match_extract [dual_loader]
        ["unet_name"; "ckpt_name"; "model_name"].
Proof. repeat split; vm_compute; congruence. Qed.

(** C3, amended.  In every component, every requested key contributes: the
    loop over [keys] appends, in the order of [keys], the choices of the
    FieldSpec each key selects, and a key selects at most one FieldSpec, the
    entry of [required] when it is true and the entry of [optional]
    otherwise.  The result of [_extract_list] is the deduplication of these
    contributions over all components. *)
Theorem every_key_contributes (object_info : list (pyval * pyval))
    (keys : list string) (debug_info : option (list debug_record))
    (node_name spec : pyval) (st : extraction) :
  (scan_component keys node_name spec st).1
    = st.1 ++
      match required_optional spec with
      | None => []
      | Some (req, opt) =>
          flat_map
            (fun k =>
               field_choices
                 (if truthy (dict_get req k)
                  then dict_get req k else dict_get opt k))
            keys
      end ∧
  (_extract_list object_info keys debug_info).1
    = dedupe
        (flat_map (fun item => component_candidates keys item.2) object_info).
Proof.
  split.
  - apply scan_component_out.
  - apply extract_list_out.
Qed.

(** ** Diagnostics through the extraction *)

Lemma record_debug_is_Some (node_name : pyval) (k : string)
    (first : list pyval) (debug_info : option (list debug_record)) :
  is_Some debug_info → is_Some (record_debug node_name k first debug_info).
Proof. intros [d ->]. destruct first; simpl; eauto. Qed.

Lemma scan_field_is_Some (node_name : pyval) (k : string) (lspec : pyval)
    (st : extraction) :
  is_Some st.2 → is_Some (scan_field node_name k lspec st).2.
Proof.
  intros H. unfold scan_field.
  destruct (truthy lspec); simpl; [|done].
  destruct (as_sequence lspec) as [[|first rest]|]; try done.
  destruct (as_sequence first); [|done].
  simpl. by apply record_debug_is_Some.
Qed.

Lemma scan_component_is_Some (keys : list string) (node_name spec : pyval)
    (st : extraction) :
  is_Some st.2 → is_Some (scan_component keys node_name spec st).2.
Proof.
  unfold scan_component.
  destruct (required_optional spec) as [[req opt]|]; [|done].
  revert st. induction keys as [|k keys IH]; intros st H; simpl; [done|].
  by apply IH, scan_field_is_Some.
Qed.

Lemma extract_list_is_Some (object_info : list (pyval * pyval))
    (keys : list string) (debug_info : option (list debug_record)) :
  is_Some debug_info → is_Some (_extract_list object_info keys debug_info).2.
Proof.
  unfold _extract_list, extract_list_scan. simpl.
  generalize (@nil string). revert debug_info.
  induction object_info as [|item oi IH]; intros d out H; simpl; [done|].
  pose proof (scan_component_is_Some keys item.1 item.2 (out, d) H) as H'.
  destruct (scan_component keys item.1 item.2 (out, d)) as [out' d'].
  by apply IH.
Qed.

Lemma extract_loras_is_Some (object_info : list (pyval * pyval))
    (debug_info : option (list debug_record)) :
  is_Some debug_info → is_Some (_extract_loras object_info debug_info).2.
Proof.
  unfold _extract_loras, extract_loras_scan. simpl.
  generalize (@nil string). revert debug_info.
  induction object_info as [|item oi IH]; intros d out H; simpl; [done|].
  assert (H' : is_Some (scan_lora_component item.1 item.2 (out, d)).2).
  { unfold scan_lora_component. destruct item.1; try done.
    destruct (contains (lower s) "lora"); [|done].
    destruct (required_optional item.2) as [[req opt]|]; [|done].
    by apply scan_field_is_Some. }
  destruct (scan_lora_component item.1 item.2 (out, d)) as [out' d'].
  by apply IH.
Qed.

Lemma build_catalog_diagnostic (now : Z) (object_info : list (pyval * pyval)) :
  is_Some (extraction_debug (_build_catalog now object_info true)).
Proof.
  unfold _build_catalog. cbn [extraction_debug].
  repeat (first [apply extract_list_is_Some | apply extract_loras_is_Some]).
  by eexists.
Qed.

Lemma build_catalog_plain (now : Z) (object_info : list (pyval * pyval)) :
  extraction_debug (_build_catalog now object_info false) = None.
Proof. reflexivity. Qed.

Lemma build_catalog_same_lists (now now' : Z)
    (object_info : list (pyval * pyval)) (debug debug' : bool) :
  same_lists (_build_catalog now object_info debug)
             (_build_catalog now' object_info debug').
Proof.
  unfold same_lists.
  destruct (build_catalog_lists now object_info debug _ eq_refl)
    as (-> & -> & -> & -> & -> & -> & ->).
  destruct (build_catalog_lists now' object_info debug' _ eq_refl)
    as (-> & -> & -> & -> & -> & -> & ->).
  by repeat split.
Qed.

(** ** The cache of the catalog endpoint *)

Lemma initial_state_clean : cache_clean initial_state.
Proof. intros data H. discriminate H. Qed.

Section CatalogCache.

(** The configuration and the clock of the process. *)
Context (cfg : config) (clock : nat → Z).

Lemma cache_hit_Some (refresh : bool) (now : Z)
    (cache : cache_entry) (data : catalog) :
  cache_hit cfg refresh now cache = Some data ↔
  cache_data cache = Some data ∧ refresh = false ∧
  (now - cache_ts cache < CACHE_TTL cfg)%Z.
Proof.
  unfold cache_hit. destruct (cache_data cache) as [d|].
  - destruct refresh; simpl.
    + split; [discriminate | intros (_ & Hr & _); discriminate Hr].
    + destruct (Z.ltb_spec (now - cache_ts cache) (CACHE_TTL cfg)) as [Hlt|Hge].
      * split; [intros [= <-]; done | intros ([= <-] & _); done].
      * split; [discriminate | intros (_ & _ & Hlt); lia].
  - split; [discriminate | intros (Hd & _); discriminate Hd].
Qed.

Lemma flowlite_catalog_clean
    (nodes : raising (list (string * node_class)))
    (query : list (string * string)) (st : server_state) :
  cache_clean st → cache_clean (flowlite_catalog cfg clock nodes query st).2.
Proof.
  intros Hclean. unfold flowlite_catalog.
  destruct (cache_hit cfg _ _ _); [done|].
  unfold rebuild_catalog. destruct nodes as [e|NCM]; [done|].
  intros data [= <-]. apply build_catalog_plain.
Qed.

Lemma serve_clean (calls : list catalog_call) (st : server_state) :
  cache_clean st → cache_clean (serve cfg clock calls st).2.
Proof.
  revert st. induction calls as [|call calls IH]; intros st H; simpl; [done|].
  by apply IH, flowlite_catalog_clean.
Qed.

Lemma flowlite_catalog_hit
    (nodes : raising (list (string * node_class)))
    (query : list (string * string)) (st : server_state) (data : catalog) :
  cache_hit cfg (query_flag query "refresh") (clock (clock_reads st))
    (catalog_cache st) = Some data →
  flowlite_catalog cfg clock nodes query st
  = (CatalogOk None None data,
     {| catalog_cache := catalog_cache st;
        clock_reads := S (clock_reads st);
        provider_calls := provider_calls st |}).
Proof. intros H. unfold flowlite_catalog. by rewrite H. Qed.

(** C6.  In every state the process can reach, the cached entry carries no
    diagnostic records, and it stays so after any further request.  A cache
    hit answers with the cached catalog, which has none.  A rebuild with
    [debug=1] answers with a diagnostic catalog built for this response,
    while the entry it stores is a separately built catalog without
    diagnostics (and with the same lists). *)
Theorem cache_never_diagnostic (calls : list catalog_call)
    (nodes : raising (list (string * node_class)))
    (query : list (string * string)) :
  let st := (serve cfg clock calls initial_state).2 in
  let now := clock (clock_reads st) in
  let r := flowlite_catalog cfg clock nodes query st in
  cache_clean st ∧
  cache_clean r.2 ∧
  (∀ data,
     cache_hit cfg (query_flag query "refresh") now (catalog_cache st)
       = Some data →
     r.1 = CatalogOk None None data ∧ extraction_debug data = None ∧
     catalog_cache r.2 = catalog_cache st) ∧
  (∀ NCM,
     cache_hit cfg (query_flag query "refresh") now (catalog_cache st) = None →
     nodes = inr NCM → query_flag query "debug" = true →
     ∃ diagnostic stored,
       r.1 = CatalogOk (Some (length NCM)) (Some (snapshot NCM).2) diagnostic ∧
       is_Some (extraction_debug diagnostic) ∧
       cache_data (catalog_cache r.2) = Some stored ∧
       extraction_debug stored = None ∧
       same_lists diagnostic stored).
Proof.
  intros st now r.
  assert (Hclean : cache_clean st) by apply serve_clean, initial_state_clean.
  split; [done|]. split; [by apply flowlite_catalog_clean|]. split.
  - intros data Hhit. subst r. unfold flowlite_catalog. fold now.
    rewrite Hhit. simpl. split; [done|]. split; [|done].
    apply Hclean. by apply cache_hit_Some in Hhit as (? & _).
  - intros NCM Hmiss -> Hdebug. subst r. unfold flowlite_catalog. fold now.
    rewrite Hmiss, Hdebug. unfold rebuild_catalog. simpl.
    eexists _, _. split; [done|].
    split; [apply build_catalog_diagnostic|].
    split; [done|]. split; [done|]. apply build_catalog_same_lists.
Qed.

(** C5, amended.  Two consecutive requests without [refresh], the first
    answered with a catalog and the second arriving within the time to live
    of the entry the first one left: the registry is asked for a snapshot at
    most once across the two, the second answer is exactly the cached
    catalog, and the two answers have the same seven lists.  When the first
    request was itself answered from the cache, the two answers are
    identical, timestamp included.  When the first request rebuilt, its
    answer carries the timestamp of its own build, and the diagnostics
    exactly when [debug] was set, while the second answer carries the
    timestamp of the catalog that was built for the cache, one reading of
    the clock later, and no diagnostics. *)
Theorem consecutive_gets_agree
    (nodes1 nodes2 : raising (list (string * node_class)))
    (query1 query2 : list (string * string)) (st : server_state) :
  let first := flowlite_catalog cfg clock nodes1 query1 st in
  let second := flowlite_catalog cfg clock nodes2 query2 first.2 in
  query_flag query1 "refresh" = false →
  query_flag query2 "refresh" = false →
  (∃ node_count sample_inputs body,
     first.1 = CatalogOk node_count sample_inputs body) →
  (clock (clock_reads first.2) - cache_ts (catalog_cache first.2)
     < CACHE_TTL cfg)%Z →
  (provider_calls second.2 ≤ S (provider_calls st))%nat ∧
  ∃ node_count sample_inputs body1 body2,
    first.1 = CatalogOk node_count sample_inputs body1 ∧
    second.1 = CatalogOk None None body2 ∧
    cache_data (catalog_cache first.2) = Some body2 ∧
    same_lists body1 body2 ∧
    (provider_calls first.2 = provider_calls st → first.1 = second.1) ∧
    (provider_calls first.2 ≠ provider_calls st →
     ts body1 = clock (S (clock_reads st)) ∧
     ts body2 = clock (S (S (clock_reads st))) ∧
     (is_Some (extraction_debug body1) ↔ query_flag query1 "debug" = true) ∧
     extraction_debug body2 = None).
Proof.
  intros first second Hr1 Hr2 Hok Httl.
  assert (Hentry : ∃ node_count sample_inputs body1 body2,
            first.1 = CatalogOk node_count sample_inputs body1 ∧
            cache_data (catalog_cache first.2) = Some body2 ∧
            same_lists body1 body2 ∧
            (provider_calls first.2 ≤ S (provider_calls st))%nat ∧
            (provider_calls first.2 = provider_calls st →
             first.1 = CatalogOk None None body2) ∧
            (provider_calls first.2 ≠ provider_calls st →
             ts body1 = clock (S (clock_reads st)) ∧
             ts body2 = clock (S (S (clock_reads st))) ∧
             (is_Some (extraction_debug body1)
              ↔ query_flag query1 "debug" = true) ∧
             extraction_debug body2 = None)).
  { subst first. clear second Httl. revert Hok. unfold flowlite_catalog.
    destruct (cache_hit cfg _ _ _) as [data|] eqn:Hhit.
    - intros _. apply cache_hit_Some in Hhit as (Hdata & _). simpl.
      exists None, None, data, data.
      split; [done|]. split; [done|]. split; [done|]. split; [lia|].
      split; [done|]. intros Hcalls. by destruct Hcalls.
    - unfold rebuild_catalog. destruct nodes1 as [e|NCM].
      + intros (? & ? & ? & H). discriminate H.
      + intros _.
        destruct (query_flag query1 "debug") eqn:Hdebug; simpl;
          eexists _, _, _, _; (split; [reflexivity|]);
          (split; [reflexivity|]);
          (split; [apply build_catalog_same_lists|]);
          (split; [lia|]); (split; [intros H; lia|]); intros _;
          (split; [reflexivity|]); (split; [reflexivity|]);
          (split; [|reflexivity]).
        * split; [done|]. intros _. apply build_catalog_diagnostic.
        * split; [|discriminate]. intros [records Hrecords].
          discriminate Hrecords. }
  destruct Hentry
    as (nc & si & body1 & body2 & H1 & Hdata & Hsame & Hcalls & Hhit1 & Hmiss1).
  assert (Hhit2 : cache_hit cfg (query_flag query2 "refresh")
                    (clock (clock_reads first.2)) (catalog_cache first.2)
                  = Some body2).
  { apply cache_hit_Some. by rewrite Hr2. }
  subst second. rewrite (flowlite_catalog_hit _ _ _ _ Hhit2). simpl.
  split; [done|].
  exists nc, si, body1, body2.
  split; [done|]. split; [done|]. split; [done|]. split; [done|].
  split; [|done]. intros H. by apply Hhit1.
Qed.

End CatalogCache.

Lemma cache_never_diagnostic_witness :
  ∃ diagnostic stored,
    (flowlite_catalog demo_config demo_clock (inr demo_NCM) [("debug", "1")]
       initial_state).1
      = CatalogOk (Some 4) (Some (snapshot demo_NCM).2) diagnostic ∧
    is_Some (extraction_debug diagnostic) ∧
    cache_data
      (catalog_cache
         (flowlite_catalog demo_config demo_clock (inr demo_NCM)
            [("debug", "1")] initial_state).2) = Some stored ∧
    extraction_debug stored = None ∧
    same_lists diagnostic stored.
Proof.
  destruct (cache_never_diagnostic demo_config demo_clock [] (inr demo_NCM)
              [("debug", "1")]) as (_ & _ & _ & H).
  apply (H demo_NCM); reflexivity.
Defined.

(** C5 as the spec words it does not hold.  On an empty cache, two requests
    without [refresh], one millisecond of clock per reading and thirty
    seconds of time to live: the first answer carries the timestamp of its
    own build, the second the timestamp of the catalog that was built for
    the cache, one reading later. *)
Lemma consecutive_gets_differ :
  let first :=
    flowlite_catalog demo_config demo_clock (inr demo_NCM) [] initial_state in
  let second :=
    flowlite_catalog demo_config demo_clock (inr demo_NCM) [] first.2 in
  (demo_clock (clock_reads first.2) - cache_ts (catalog_cache first.2)
     < CACHE_TTL demo_config)%Z ∧
  (∃ body, first.1 = CatalogOk None None body ∧ ts body = 1700000000001%Z) ∧
  (∃ body, second.1 = CatalogOk None None body ∧ ts body = 1700000000002%Z) ∧
  first.1 ≠ second.1.
Proof.
  vm_compute. split; [done|].
  split; [by eexists|]. split; [by eexists|]. discriminate.
Qed.

Lemma consecutive_gets_agree_witness :
  (let first :=
     flowlite_catalog demo_config demo_clock (inr demo_NCM) [("debug", "1")]
       initial_state in
   let second :=
     flowlite_catalog demo_config demo_clock (inr demo_NCM) [] first.2 in
   (provider_calls second.2 ≤ 1)%nat ∧
   ∃ node_count sample_inputs body1 body2,
     first.1 = CatalogOk node_count sample_inputs body1 ∧
     second.1 = CatalogOk None None body2 ∧
     same_lists body1 body2 ∧
     ts body1 = 1700000000001%Z ∧
     ts body2 = 1700000000002%Z ∧
     is_Some (extraction_debug body1) ∧
     extraction_debug body2 = None) ∧
  (let warm :=
     (flowlite_catalog demo_config demo_clock (inr demo_NCM) []
        initial_state).2 in
   let first :=
     flowlite_catalog demo_config demo_clock (inr demo_NCM) [] warm in
   let second :=
     flowlite_catalog demo_config demo_clock (inr demo_NCM) [] first.2 in
   (provider_calls second.2 ≤ 2)%nat ∧ first.1 = second.1).
Proof.
  split.
  - destruct (consecutive_gets_agree demo_config demo_clock (inr demo_NCM)
                (inr demo_NCM) [("debug", "1")] [] initial_state)
      as (Hcalls & nc & si & body1 & body2 & H1 & H2 & _ & Hsame & _ & Hmiss);
      [reflexivity | reflexivity | eexists _, _, _; reflexivity
      | reflexivity |].
    split; [exact Hcalls|].
    destruct Hmiss as (Hts1 & Hts2 & Hdebug & Hnone);
      [vm_compute; discriminate|].
    exists nc, si, body1, body2.
    split; [exact H1|]. split; [exact H2|]. split; [exact Hsame|].
    split; [exact Hts1|]. split; [exact Hts2|].
    split; [apply Hdebug; reflexivity | exact Hnone].
  - destruct (consecutive_gets_agree demo_config demo_clock (inr demo_NCM)
                (inr demo_NCM) [] []
                (flowlite_catalog demo_config demo_clock (inr demo_NCM) []
                   initial_state).2)
      as (Hcalls & nc & si & body1 & body2 & _ & _ & _ & _ & Hhit & _);
      [reflexivity | reflexivity | eexists _, _, _; reflexivity
      | reflexivity |].
    split; [exact Hcalls|]. apply Hhit. reflexivity.
Defined.

(** ** The transcoder *)

(** C7.  For all bytes and every quality: when PIL cannot be imported, or
    when anything in the decode, convert, encode sequence raises (a decode
    failure of [Image.open] in particular), [_compress_to_jpeg] returns the
    bytes it was given with the mime type [image/png]; it returns, it does
    not raise. *)
Theorem transcode_falls_back (import : raising pil_module) (data : list byte)
    (quality : Z) :
  ((∃ msg, import = inl (ImportError msg)) ∨
   (∃ PIL e, import = inr PIL ∧ jpeg_body PIL data quality = inl e) ∨
   (∃ PIL e, import = inr PIL ∧ Image_open PIL data = inl e)) →
  _compress_to_jpeg import data quality = inr (data, "image/png").
Proof.
  intros [(msg & ->) | [(PIL & e & -> & Hbody) | (PIL & e & -> & Hopen)]].
  - reflexivity.
  - unfold _compress_to_jpeg. by rewrite Hbody.
  - unfold _compress_to_jpeg, jpeg_body. by rewrite Hopen.
Qed.

Lemma transcode_falls_back_witness :
  _compress_to_jpeg (inr toy_PIL) corrupt_bytes 85
  = inr (corrupt_bytes, "image/png").
Proof.
  apply (transcode_falls_back (inr toy_PIL) corrupt_bytes 85).
  right. right. exists toy_PIL, (OSError "cannot identify image file").
  split; reflexivity.
Defined.

(** ** The image endpoint *)

Lemma base_dir_of_other (h : host) (img_type : string) :
  img_type ≠ "output" → img_type ≠ "input" → img_type ≠ "temp" →
  base_dir_of h img_type = get_output_directory h.
Proof.
  intros Ho Hi Ht. unfold base_dir_of.
  destruct (String.eqb_spec img_type "output"); [done|].
  destruct (String.eqb_spec img_type "input"); [done|].
  by destruct (String.eqb_spec img_type "temp").
Qed.

(** C10.  A request whose [type] is none of [output], [input] and [temp] is
    not rejected: its base directory is the output directory, the handler
    does with it exactly what it does with the same request and
    [type=output], and it is served: when the path resolved against the
    output directory is a readable regular file (and the transcoder does
    not raise), the answer is that file's image, sent verbatim when the
    transcoder is not called. *)
Theorem unknown_type_is_output (cfg : config) (h : host)
    (query : list (string * string)) (fs : gmap string fs_node) :
  query_get query "type" "output" ≠ "output" →
  query_get query "type" "output" ≠ "input" →
  query_get query "type" "output" ≠ "temp" →
  base_dir_of h (query_get query "type" "output") = get_output_directory h ∧
  flowlite_image cfg h query fs
  = flowlite_image cfg h (("type", "output") :: query) fs ∧
  ∀ quality full_path f,
    request_quality cfg query = inr quality →
    query_get query "filename" "" ≠ "" →
    resolve_path h (get_output_directory h)
      (query_get query "subfolder" "") (query_get query "filename" "")
      = Some full_path →
    fs !! full_path = Some (RegularFile f) →
    file_readable f = true →
    (∀ e, _compress_to_jpeg (import_PIL h) (file_content f)
            (Z.max 1 (Z.min 100 quality)) ≠ inl e) →
    ∃ body content_type deleted,
      (flowlite_image cfg h query fs).1.1
        = ImageBody body content_type (length (file_content f))
            (length body) deleted ∧
      (String.eqb (query_get query "compress" "1") "1" &&
       looks_like_png (query_get query "filename" "") (file_content f)
       = false →
       body = file_content f ∧ content_type = "image/png" ∧
       deleted = false).
Proof.
  intros Ho Hi Ht.
  pose proof (base_dir_of_other h _ Ho Hi Ht) as Hbase.
  split; [done|]. split.
  { unfold flowlite_image, request_quality.
    cbn [query_get query_lookup String.eqb Ascii.eqb Bool.eqb].
    by rewrite Hbase. }
  intros quality full_path f Hquality Hname Hpath Hnode Hreadable Hjpeg.
  apply String.eqb_neq in Hname.
  unfold flowlite_image. rewrite Hquality, Hname, Hbase, Hpath.
  unfold send_file. rewrite Hnode, Hreadable. cbn [negb].
  destruct (String.eqb (query_get query "compress" "1") "1" &&
            looks_like_png (query_get query "filename" "") (file_content f))
    eqn:Hpng.
  - destruct (_compress_to_jpeg (import_PIL h) (file_content f)
                (Z.max 1 (Z.min 100 quality))) as [e|[body content_type]]
      eqn:Hresult; [by destruct (Hjpeg e)|].
    cbn [bind ret fst snd].
    destruct (delete_source _ true full_path fs) as [[deleted fs'] evs].
    exists body, content_type, deleted. split; [done | discriminate].
  - cbn [ret]. unfold delete_source. rewrite andb_false_r.
    exists (file_content f), "image/png", false. by split.
Qed.

Lemma unknown_type_is_output_witness :
  flowlite_image demo_config demo_host
    [("filename", "notes.txt"); ("type", "thumbnails")] demo_fs
  = flowlite_image demo_config demo_host
      [("type", "output"); ("filename", "notes.txt"); ("type", "thumbnails")]
      demo_fs ∧
  (flowlite_image demo_config demo_host
     [("filename", "notes.txt"); ("type", "thumbnails")] demo_fs).1.1
  = ImageBody [x68; x69] "image/png" 2 2 false.
Proof.
  destruct (unknown_type_is_output demo_config demo_host
              [("filename", "notes.txt"); ("type", "thumbnails")] demo_fs)
    as (_ & Hsame & Hserved); [vm_compute; discriminate ..|].
  split; [exact Hsame|].
  destruct (Hserved 85%Z "/data/output/notes.txt"
              {| file_content := [x68; x69]; file_readable := true;
                 file_removable := true |})
    as (body & content_type & deleted & Hanswer & Hverbatim);
    [reflexivity | vm_compute; discriminate | reflexivity | reflexivity
    | reflexivity | intros e; vm_compute; discriminate |].
  destruct (Hverbatim eq_refl) as (-> & -> & ->). exact Hanswer.
Defined.

(** C1, on the code.  With the defaults ([compress] and [delete] on), a
    file named [.png] that the codec cannot decode is sent as it is, byte
    for byte and as [image/png], and is removed from the disk all the same:
    [was_compressed] records that the transcoder was called, not that it
    produced a JPEG.  The same happens to a good PNG in a runtime without
    PIL. *)
Theorem fallback_send_deletes_source :
  demo_fs !! "/data/output/broken.png" = Some (plain_file corrupt_bytes) ∧
  _compress_to_jpeg (import_PIL demo_host) corrupt_bytes 85
    = inr (corrupt_bytes, "image/png") ∧
  flowlite_image demo_config demo_host [("filename", "broken.png")] demo_fs
    = (ImageBody corrupt_bytes "image/png" 4 4 true,
       delete "/data/output/broken.png" demo_fs,
       [EvExists "/data/output/broken.png"; EvRead "/data/output/broken.png";
        EvExists "/data/output/broken.png";
        EvRemove "/data/output/broken.png"]) ∧
  delete "/data/output/broken.png" demo_fs !! "/data/output/broken.png"
    = None ∧
  flowlite_image demo_config bare_host [("filename", "render.png")] demo_fs
    = (ImageBody tiny_png "image/png" 12 12 true,
       delete "/data/output/render.png" demo_fs,
       [EvExists "/data/output/render.png"; EvRead "/data/output/render.png";
        EvExists "/data/output/render.png";
        EvRemove "/data/output/render.png"]).
Proof. repeat split; vm_compute; reflexivity. Qed.

(** C2, on the code.  The containment test is [startswith] on the two
    canonical strings, so a sibling of the base directory whose name
    extends the base's name passes it: [/data/output_private/key.png] is
    not within [/data/output], yet it resolves, is served, and with the
    defaults is removed. *)
Theorem sibling_directory_is_served :
  resolve_path demo_host (base_dir_of demo_host "output") ""
    "../output_private/key.png"
    = Some "/data/output_private/key.png" ∧
  ¬ within (realpath demo_host (base_dir_of demo_host "output"))
      "/data/output_private/key.png" ∧
  flowlite_image demo_config demo_host
    [("filename", "../output_private/key.png"); ("compress", "0");
     ("delete", "0")] demo_fs
    = (ImageBody [x6b; x65; x79] "image/png" 3 3 false, demo_fs,
       [EvExists "/data/output_private/key.png";
        EvRead "/data/output_private/key.png"]) ∧
  flowlite_image demo_config demo_host
    [("filename", "../output_private/key.png")] demo_fs
    = (ImageBody [x6b; x65; x79] "image/png" 3 3 true,
       delete "/data/output_private/key.png" demo_fs,
       [EvExists "/data/output_private/key.png";
        EvRead "/data/output_private/key.png";
        EvExists "/data/output_private/key.png";
        EvRemove "/data/output_private/key.png"]).
Proof.
  split; [vm_compute; reflexivity|]. split.
  - intros [H | [H | H]]; vm_compute in H; discriminate H.
  - split; vm_compute; reflexivity.
Qed.

(** ** Canonical paths without symbolic links *)

Lemma append_cons (c : ascii) (s t : string) :
  String c s +:+ t = String c (s +:+ t).
Proof. reflexivity. Qed.

Lemma append_nil_l (t : string) : "" +:+ t = t.
Proof. reflexivity. Qed.

Lemma append_assoc (s t u : string) : (s +:+ t) +:+ u = s +:+ (t +:+ u).
Proof.
  induction s as [|c s IH]; [done|]. by rewrite !append_cons, IH.
Qed.

Lemma plain_name_slash_free (name : string) (c : ascii) :
  plain_name name → c ∈ list_ascii_of_string name → c ≠ "/"%char.
Proof. intros (_ & _ & _ & H). apply H. Qed.

Lemma split_slash_name (name rest : string) :
  (∀ c, c ∈ list_ascii_of_string name → c ≠ "/"%char) →
  split_slash (name +:+ String "/" rest) = name :: split_slash rest.
Proof.
  induction name as [|c name IH]; intros Hfree.
  - reflexivity.
  - rewrite append_cons. cbn [split_slash].
    destruct (Ascii.eqb_spec c "/") as [->|Hc].
    { exfalso. apply (Hfree "/"%char); [apply list_elem_of_here | done]. }
    rewrite IH; [done|].
    intros c' Hc'. apply Hfree. by apply list_elem_of_further.
Qed.


Lemma split_slash_concat (name : string) (names : list string)
    (rest : string) :
  Forall plain_name (name :: names) →
  split_slash (String.concat "/" (name :: names) +:+ String "/" rest)
  = (name :: names) ++ split_slash rest.
Proof.
  revert name. induction names as [|name' names IH]; intros name Hplain.
  - cbn [String.concat]. apply split_slash_name.
    intros c. apply plain_name_slash_free. by apply Forall_inv in Hplain.
  - change (String.concat "/" (name :: name' :: names))
      with (name +:+ "/" +:+ String.concat "/" (name' :: names)).
    rewrite !append_assoc, append_cons, append_nil_l.
    rewrite split_slash_name.
    + rewrite IH; [done|]. by apply Forall_inv_tail in Hplain.
    + intros c. apply plain_name_slash_free. by apply Forall_inv in Hplain.
Qed.













(** ** Walking a path name by name *)















(** ** The prefix test on canonical paths, name by name *)












(** A request that does not reach the transcoder leaves the source file in
    place, whatever [delete] says. *)
Lemma pass_through_keeps_source (h : host) (filename full_path : string)
    (compress delete_after : bool) (quality : Z) (fs : gmap string fs_node) :
  (∀ f, fs !! full_path = Some (RegularFile f) →
        compress && looks_like_png filename (file_content f) = false) →
  (send_file h filename full_path compress delete_after quality fs).1.2 = fs.
Proof.
  intros Hpass. unfold send_file.
  destruct (fs !! full_path) as [[f|]|] eqn:Hnode; try done.
  destruct (file_readable f); [|done]. simpl.
  rewrite (Hpass f eq_refl). simpl.
  unfold delete_source. by rewrite andb_false_r.
Qed.

(** What the containment test does establish: a resolved path has the
    canonical base directory as a prefix of its characters. *)
Lemma resolve_path_startswith (h : host) (base_dir subfolder filename : string)
    (full_path : string) :
  resolve_path h base_dir subfolder filename = Some full_path →
  startswith full_path (realpath h base_dir) = true.
Proof.
  unfold resolve_path.
  destruct (startswith _ (realpath h base_dir)) eqn:Hstart; simpl;
    [|discriminate].
  by intros [= <-].
Qed.

(** The deletion does not look at what the transcoder returned: whenever
    the transcoder is called on a readable, removable file and [delete] is
    set, the file is removed, also when the bytes sent are the bytes read. *)
Lemma transcoder_called_source_deleted (h : host)
    (filename full_path : string) (quality : Z) (fs : gmap string fs_node)
    (f : file) (body : list byte) (content_type : string) :
  fs !! full_path = Some (RegularFile f) →
  file_readable f = true → file_removable f = true →
  looks_like_png filename (file_content f) = true →
  _compress_to_jpeg (import_PIL h) (file_content f) quality
    = inr (body, content_type) →
  send_file h filename full_path true true quality fs
  = (ImageBody body content_type (length (file_content f)) (length body) true,
     delete full_path fs,
     [EvExists full_path; EvRead full_path; EvExists full_path;
      EvRemove full_path]).
Proof.
  intros Hnode Hread Hremove Hpng Hjpeg. unfold send_file.
  rewrite Hnode, Hread, Hpng, Hjpeg. simpl.
  unfold delete_source. simpl. by rewrite Hnode, Hremove.
Qed.

(** * Further properties of the image endpoint *)

(** The handler, step by step. *)
Lemma flowlite_image_unfold (cfg : config) (h : host)
    (query : list (string * string)) (fs : gmap string fs_node) :
  flowlite_image cfg h query fs
  = match request_quality cfg query with
    | inl e => (Unhandled e, fs, [])
    | inr quality =>
        if String.eqb (request_filename query) "" then
          (JsonError 400 "filename required", fs, [])
        else
          match request_path h query with
          | None => (JsonError 403 "Invalid path", fs, [])
          | Some full_path =>
              send_file h (request_filename query) full_path
                (request_compress query) (request_delete cfg query)
                (Z.max 1 (Z.min 100 quality)) fs
          end
    end.
Proof. reflexivity. Qed.

(** What [_compress_to_jpeg] can return. *)
Lemma compress_to_jpeg_content_type (import : raising pil_module)
    (data : list byte) (quality : Z) (body : list byte)
    (content_type : string) :
  _compress_to_jpeg import data quality = inr (body, content_type) →
  (body = data ∧ content_type = "image/png") ∨ content_type = "image/jpeg".
Proof.
  unfold _compress_to_jpeg. destruct import as [[]|PIL]; try discriminate.
  - intros [= <- <-]. by left.
  - destruct (jpeg_body PIL data quality) as [e|[out ct]] eqn:Hbody.
    + intros [= <- <-]. by left.
    + intros [= <- <-]. right.
      unfold jpeg_body in Hbody.
      repeat match type of Hbody with
             | bind ?m _ = _ => destruct m; simpl in Hbody; try discriminate
             end.
      by injection Hbody as _ <-.
Qed.

(** What [send_file] answers, and what it does to the file system. *)
Lemma send_file_outcome (h : host) (filename full_path : string)
    (compress delete_after : bool) (quality : Z) (fs : gmap string fs_node) :
  let r := send_file h filename full_path compress delete_after quality fs in
  (∀ ev, ev ∈ r.2 → event_path ev = full_path) ∧
  match r.1.1 with
  | ImageBody body content_type original_size compressed_size deleted =>
      ∃ f, fs !! full_path = Some (RegularFile f) ∧
        file_readable f = true ∧
        original_size = length (file_content f) ∧
        compressed_size = length body ∧
        ((body = file_content f ∧ content_type = "image/png") ∨
         (content_type = "image/jpeg" ∧ compress = true ∧
          looks_like_png filename (file_content f) = true)) ∧
        (if deleted
         then delete_after = true ∧ compress = true ∧
              looks_like_png filename (file_content f) = true ∧
              file_removable f = true ∧ r.1.2 = delete full_path fs
         else r.1.2 = fs)
  | _ => r.1.2 = fs
  end.
Proof.
  assert (Hpaths : ∀ (evs : list fs_event) ev,
            Forall (fun ev => event_path ev = full_path) evs →
            ev ∈ evs → event_path ev = full_path).
  { intros evs ev Hall Hev. by apply (proj1 (Forall_forall _ _) Hall). }
  unfold send_file.
  destruct (fs !! full_path) as [[f|]|] eqn:Hnode; simpl.
  - destruct (file_readable f) eqn:Hreadable; simpl.
    + destruct (compress && looks_like_png filename (file_content f))
        eqn:Hpng; simpl.
      * apply andb_true_iff in Hpng as [-> Hlooks].
        destruct (_compress_to_jpeg (import_PIL h) (file_content f) quality)
          as [e|[body content_type]] eqn:Hjpeg; simpl.
        { split; [|done]. intros ev. apply Hpaths. by repeat constructor. }
        apply compress_to_jpeg_content_type in Hjpeg.
        unfold delete_source. rewrite Hnode.
        destruct delete_after; simpl;
          [destruct (file_removable f) eqn:Hremovable; simpl|].
        all: split; [intros ev; apply Hpaths; by repeat constructor|].
        all: exists f; repeat split; try done.
        all: destruct Hjpeg as [[-> ->] | ->]; [by left | by right].
      * unfold delete_source. rewrite andb_false_r. simpl.
        split; [intros ev; apply Hpaths; by repeat constructor|].
        exists f. repeat split; try done. by left.
    + split; [|done]. intros ev. apply Hpaths. by repeat constructor.
  - split; [|done]. intros ev. apply Hpaths. by repeat constructor.
  - split; [|done]. intros ev. apply Hpaths. by repeat constructor.
Qed.

(** X1.  The image handler never creates or changes a file, and removes at
    most one: whenever the file system after the request differs from the
    one before, the answer is an image with [X-Deleted: 1], and the file
    system is the old one without the file the request resolved to, a
    removable regular file; [delete] and [compress] were both on.  Every
    other answer (an error, an image with [X-Deleted: 0], an exception)
    leaves the file system as it was. *)
Theorem image_removes_only_the_resolved_file (cfg : config) (h : host)
    (query : list (string * string)) (fs : gmap string fs_node) :
  let r := flowlite_image cfg h query fs in
  match r.1.1 with
  | ImageBody _ _ _ _ true =>
      ∃ full_path f,
        request_path h query = Some full_path ∧
        fs !! full_path = Some (RegularFile f) ∧
        file_removable f = true ∧
        request_delete cfg query = true ∧
        request_compress query = true ∧
        r.1.2 = delete full_path fs
  | _ => r.1.2 = fs
  end.
Proof.
  rewrite flowlite_image_unfold.
  destruct (request_quality cfg query) as [e|quality]; [done|].
  destruct (String.eqb (request_filename query) ""); [done|].
  destruct (request_path h query) as [full_path|] eqn:Hpath; [|done].
  destruct (send_file_outcome h (request_filename query) full_path
              (request_compress query) (request_delete cfg query)
              (Z.max 1 (Z.min 100 quality)) fs) as [_ Hout].
  cbv zeta in *.
  destruct (send_file _ _ _ _ _ _ _) as [[[status error|body ct o c d|e] fs'] evs];
    simpl in *; try done.
  destruct Hout as (f & Hnode & _ & _ & _ & _ & Hdel).
  destruct d; [|done].
  destruct Hdel as (Hd & Hc & _ & Hrem & ->). by exists full_path, f.
Qed.

(** X2.  The headers of an image answer are accurate.  [X-Original-Size]
    is the size of the regular file the request resolved to,
    [X-Compressed-Size] is the size of the body sent, the content type is
    [image/png] with the body being the file's bytes, or [image/jpeg], and
    [X-Deleted] is [1] exactly when the file is gone afterwards; no other
    path of the file system is affected. *)
Theorem image_headers_are_accurate (cfg : config) (h : host)
    (query : list (string * string)) (fs : gmap string fs_node)
    (body : list byte) (content_type : string)
    (original_size compressed_size : nat) (deleted : bool) :
  let r := flowlite_image cfg h query fs in
  r.1.1 = ImageBody body content_type original_size compressed_size deleted →
  ∃ full_path f,
    request_path h query = Some full_path ∧
    fs !! full_path = Some (RegularFile f) ∧
    original_size = length (file_content f) ∧
    compressed_size = length body ∧
    ((content_type = "image/png" ∧ body = file_content f) ∨
     content_type = "image/jpeg") ∧
    (deleted = true ↔ r.1.2 !! full_path = None) ∧
    ∀ other, other ≠ full_path → r.1.2 !! other = fs !! other.
Proof.
  rewrite flowlite_image_unfold.
  destruct (request_quality cfg query) as [e|quality]; [done|].
  destruct (String.eqb (request_filename query) ""); [done|].
  destruct (request_path h query) as [full_path|] eqn:Hpath; [|done].
  destruct (send_file_outcome h (request_filename query) full_path
              (request_compress query) (request_delete cfg query)
              (Z.max 1 (Z.min 100 quality)) fs) as [_ Hout].
  cbv zeta in *.
  destruct (send_file _ _ _ _ _ _ _) as [[resp fs'] evs]. simpl in *.
  intros ->.
  destruct Hout as (f & Hnode & _ & -> & -> & Hct & Hdel).
  exists full_path, f. repeat split; try done.
  - destruct Hct as [[-> ->] | [-> _]]; [by left | by right].
  - intros ->. destruct Hdel as (_ & _ & _ & _ & ->). apply lookup_delete_eq.
  - intros Hgone. destruct deleted; [done|]. subst fs'. congruence.
  - intros other Hother. destruct deleted.
    + destruct Hdel as (_ & _ & _ & _ & ->). by apply lookup_delete_ne.
    + by subst fs'.
Qed.

Lemma image_headers_are_accurate_witness :
  ∃ full_path f,
    request_path demo_host [("filename", "render.png")] = Some full_path ∧
    demo_fs !! full_path = Some (RegularFile f) ∧
    12 = length (file_content f) ∧
    8 = length [xff; xd8; x01; x02; x03; x04; xff; xd9] ∧
    (("image/jpeg" = "image/png" ∧
      [xff; xd8; x01; x02; x03; x04; xff; xd9] = file_content f) ∨
     "image/jpeg" = "image/jpeg") ∧
    (true = true ↔
     (flowlite_image demo_config demo_host [("filename", "render.png")]
        demo_fs).1.2 !! full_path = None) ∧
    ∀ other, other ≠ full_path →
      (flowlite_image demo_config demo_host [("filename", "render.png")]
         demo_fs).1.2 !! other = demo_fs !! other.
Proof.
  apply (image_headers_are_accurate demo_config demo_host
           [("filename", "render.png")] demo_fs
           [xff; xd8; x01; x02; x03; x04; xff; xd9] "image/jpeg" 12 8 true).
  vm_compute. reflexivity.
Defined.

Lemma resolved_path_startswith (h : host) (query : list (string * string))
    (full_path : string) :
  request_path h query = Some full_path →
  startswith full_path (realpath h (base_dir_of h (request_type query)))
  = true.
Proof.
  unfold request_path, resolve_path.
  destruct (startswith _ (realpath h _)) eqn:Hstart; simpl; [|discriminate].
  by intros [= <-].
Qed.

(** X3.  Every access the image handler makes to the file system is made
    to the one path the request resolved to, and that path begins with the
    canonical base directory of the request's [type].  In particular a
    request that is rejected with 403 makes no access at all. *)
Theorem image_touches_only_resolved_path (cfg : config) (h : host)
    (query : list (string * string)) (fs : gmap string fs_node)
    (ev : fs_event) :
  ev ∈ (flowlite_image cfg h query fs).2 →
  ∃ full_path,
    request_path h query = Some full_path ∧
    event_path ev = full_path ∧
    startswith full_path (realpath h (base_dir_of h (request_type query)))
    = true.
Proof.
  rewrite flowlite_image_unfold.
  destruct (request_quality cfg query) as [e|quality];
    [intros H; by apply elem_of_nil in H|].
  destruct (String.eqb (request_filename query) "");
    [intros H; by apply elem_of_nil in H|].
  destruct (request_path h query) as [full_path|] eqn:Hpath;
    [|intros H; by apply elem_of_nil in H].
  intros Hev. exists full_path. split; [done|]. split.
  - by apply (send_file_outcome h (request_filename query) full_path
                (request_compress query) (request_delete cfg query)
                (Z.max 1 (Z.min 100 quality)) fs).
  - by apply resolved_path_startswith.
Qed.

Lemma image_touches_only_resolved_path_witness :
  ∃ full_path,
    request_path demo_host [("filename", "render.png")] = Some full_path ∧
    event_path (EvRemove "/data/output/render.png") = full_path ∧
    startswith full_path
      (realpath demo_host
         (base_dir_of demo_host (request_type [("filename", "render.png")])))
    = true.
Proof.
  apply (image_touches_only_resolved_path demo_config demo_host
           [("filename", "render.png")] demo_fs
           (EvRemove "/data/output/render.png")).
  vm_compute. do 3 apply list_elem_of_further. apply list_elem_of_here.
Defined.

(** X4.  With [delete] off (the parameter is anything but [1], or it is
    absent and [DELETE_AFTER_SEND] is off), the file system is left as it
    was, no removal is attempted, and an image answer says
    [X-Deleted: 0]. *)
Theorem delete_off_keeps_files (cfg : config) (h : host)
    (query : list (string * string)) (fs : gmap string fs_node) :
  request_delete cfg query = false →
  let r := flowlite_image cfg h query fs in
  r.1.2 = fs ∧
  (∀ path, EvRemove path ∉ r.2) ∧
  ∀ body content_type original_size compressed_size deleted,
    r.1.1 = ImageBody body content_type original_size compressed_size deleted →
    deleted = false.
Proof.
  intros Hdelete. rewrite flowlite_image_unfold, Hdelete.
  assert (Hnone : ∀ path, EvRemove path ∉ @nil fs_event).
  { intros path H. by apply elem_of_nil in H. }
  assert (Hread : ∀ full_path path,
            EvRemove path ∉ [EvExists full_path; EvRead full_path]).
  { intros full_path path H.
    repeat (apply elem_of_cons in H as [H | H]; [discriminate H|]).
    by apply elem_of_nil in H. }
  destruct (request_quality cfg query) as [e|quality]; [done|].
  destruct (String.eqb (request_filename query) ""); [done|].
  destruct (request_path h query) as [full_path|]; [|done].
  unfold send_file.
  destruct (fs !! full_path) as [[f|]|]; simpl.
  - destruct (file_readable f); simpl; [|by auto].
    destruct (if request_compress query &&
                 looks_like_png (request_filename query) (file_content f)
              then _ else _) as [e|[[body ct] wc]]; simpl; [by auto|].
    split; [done|]. split; [apply Hread|]. by intros ????? [= _ _ _ _ <-].
  - by auto.
  - split; [done|]. split; [|done].
    intros path H. apply elem_of_cons in H as [H | H]; [discriminate H|].
    by apply elem_of_nil in H.
Qed.

Lemma delete_off_keeps_files_witness :
  let r :=
    flowlite_image demo_config demo_host
      [("filename", "render.png"); ("delete", "0")] demo_fs in
  r.1.2 = demo_fs ∧
  (∀ path, EvRemove path ∉ r.2) ∧
  ∀ body content_type original_size compressed_size deleted,
    r.1.1 = ImageBody body content_type original_size compressed_size deleted →
    deleted = false.
Proof.
  apply (delete_off_keeps_files demo_config demo_host
           [("filename", "render.png"); ("delete", "0")] demo_fs).
  reflexivity.
Defined.

(** X5.  A request that does not reach the transcoder is sent verbatim:
    with [compress] off, or for a file that is neither named [.png] nor
    starts with the PNG signature, the file system is left as it was, and
    an image answer carries exactly the bytes of the resolved file, as
    [image/png], with equal original and compressed sizes and
    [X-Deleted: 0], whatever [delete] says. *)
Theorem untranscoded_file_is_sent_verbatim (cfg : config) (h : host)
    (query : list (string * string)) (fs : gmap string fs_node) :
  (request_compress query = false ∨
   ∀ full_path f,
     request_path h query = Some full_path →
     fs !! full_path = Some (RegularFile f) →
     looks_like_png (request_filename query) (file_content f) = false) →
  let r := flowlite_image cfg h query fs in
  r.1.2 = fs ∧
  ∀ body content_type original_size compressed_size deleted,
    r.1.1 = ImageBody body content_type original_size compressed_size deleted →
    ∃ full_path f,
      request_path h query = Some full_path ∧
      fs !! full_path = Some (RegularFile f) ∧
      body = file_content f ∧ content_type = "image/png" ∧
      original_size = compressed_size ∧ deleted = false.
Proof.
  intros Hpass. rewrite flowlite_image_unfold.
  destruct (request_quality cfg query) as [e|quality]; [done|].
  destruct (String.eqb (request_filename query) ""); [done|].
  destruct (request_path h query) as [full_path|] eqn:Hpath; [|done].
  unfold send_file.
  destruct (fs !! full_path) as [[f|]|] eqn:Hnode; simpl; try done.
  destruct (file_readable f); simpl; [|done].
  assert (Hpng : request_compress query &&
                 looks_like_png (request_filename query) (file_content f)
                 = false).
  { destruct Hpass as [-> | Hpass]; [done|].
    rewrite (Hpass full_path f) by done. apply andb_false_r. }
  rewrite Hpng. simpl. unfold delete_source. rewrite andb_false_r. simpl.
  split; [done|].
  intros ????? [= <- <- <- <- <-]. by exists full_path, f.
Qed.

Lemma untranscoded_file_is_sent_verbatim_witness :
  let r :=
    flowlite_image demo_config demo_host [("filename", "notes.txt")] demo_fs in
  r.1.2 = demo_fs ∧
  ∀ body content_type original_size compressed_size deleted,
    r.1.1 = ImageBody body content_type original_size compressed_size deleted →
    ∃ full_path f,
      request_path demo_host [("filename", "notes.txt")] = Some full_path ∧
      demo_fs !! full_path = Some (RegularFile f) ∧
      body = file_content f ∧ content_type = "image/png" ∧
      original_size = compressed_size ∧ deleted = false.
Proof.
  apply (untranscoded_file_is_sent_verbatim demo_config demo_host
           [("filename", "notes.txt")] demo_fs).
  right. intros full_path f Hpath Hnode.
  injection Hpath as <-. vm_compute in Hnode. injection Hnode as <-.
  reflexivity.
Defined.

(** X6.  The two rejections that come before path resolution.  A
    [quality] parameter that [int()] does not accept makes the handler
    raise the [ValueError] (line 208 is outside the [try]), whatever the
    other parameters are, an empty [filename] included.  Otherwise a
    request without [filename], or with an empty one, is answered 400.
    Neither makes any access to the file system. *)
Theorem early_rejections (cfg : config) (h : host)
    (query : list (string * string)) (fs : gmap string fs_node) :
  (∀ q e,
     query_lookup query "quality" = Some q → py_int q = inl e →
     flowlite_image cfg h query fs = (Unhandled e, fs, [])) ∧
  (∀ quality,
     request_quality cfg query = inr quality →
     request_filename query = "" →
     flowlite_image cfg h query fs
     = (JsonError 400 "filename required", fs, [])).
Proof.
  split.
  - intros q e Hq He. rewrite flowlite_image_unfold.
    unfold request_quality. by rewrite Hq, He.
  - intros quality Hquality Hname. rewrite flowlite_image_unfold.
    by rewrite Hquality, Hname.
Qed.

Lemma early_rejections_witness :
  flowlite_image demo_config demo_host [("quality", "high")] demo_fs
    = (Unhandled
         (ValueError "invalid literal for int() with base 10: 'high'"),
       demo_fs, []) ∧
  flowlite_image demo_config demo_host [("quality", " 9_0 ")] demo_fs
    = (JsonError 400 "filename required", demo_fs, []).
Proof.
  split.
  - apply (proj1 (early_rejections demo_config demo_host
                    [("quality", "high")] demo_fs) "high"); reflexivity.
  - apply (proj2 (early_rejections demo_config demo_host
                    [("quality", " 9_0 ")] demo_fs) 90%Z); reflexivity.
Defined.

Lemma query_get_lookup (query : list (string * string)) (k d : string) :
  query_get query k d = default d (query_lookup query k).
Proof.
  induction query as [|[k' v] query IH]; simpl; [done|].
  by destruct (String.eqb k' k).
Qed.

(** X7.  The quality is clamped to 1..100 before anything uses it: two
    requests that differ in nothing but [quality] are handled identically
    when both qualities are at most 1, and when both are at least 100. *)
Theorem quality_is_clamped (cfg : config) (h : host)
    (query1 query2 : list (string * string)) (fs : gmap string fs_node)
    (quality1 quality2 : Z) :
  (∀ k, k ≠ "quality" → query_lookup query1 k = query_lookup query2 k) →
  request_quality cfg query1 = inr quality1 →
  request_quality cfg query2 = inr quality2 →
  (quality1 ≤ 1 ∧ quality2 ≤ 1)%Z ∨ (100 ≤ quality1 ∧ 100 ≤ quality2)%Z →
  flowlite_image cfg h query1 fs = flowlite_image cfg h query2 fs.
Proof.
  intros Hsame Hq1 Hq2 Hclamp.
  rewrite !flowlite_image_unfold, Hq1, Hq2.
  unfold request_path, request_filename, request_subfolder, request_type,
    request_compress, request_delete.
  rewrite !(query_get_lookup query1), !(query_get_lookup query2).
  rewrite !(Hsame "filename"), !(Hsame "subfolder"), !(Hsame "type"),
    !(Hsame "compress"), !(Hsame "delete") by discriminate.
  replace (Z.max 1 (Z.min 100 quality1)) with (Z.max 1 (Z.min 100 quality2))
    by lia.
  reflexivity.
Qed.

Lemma quality_is_clamped_witness :
  flowlite_image demo_config demo_host
    [("filename", "render.png"); ("quality", "100")] demo_fs
  = flowlite_image demo_config demo_host
      [("quality", "4000"); ("filename", "render.png")] demo_fs.
Proof.
  apply (quality_is_clamped demo_config demo_host
           [("filename", "render.png"); ("quality", "100")]
           [("quality", "4000"); ("filename", "render.png")] demo_fs
           100 4000).
  - intros k Hk. cbn [query_lookup].
    destruct (String.eqb_spec "quality" k) as [<-|_]; [done|].
    by destruct (String.eqb "filename" k).
  - reflexivity.
  - reflexivity.
  - right. lia.
Defined.

(** X8.  What [_compress_to_jpeg] returns, when it returns: either the
    bytes it was given, as [image/png], or, as [image/jpeg], bytes that the
    encoder produced at the requested quality from an image obtained by
    decoding the given bytes; an image decoded in mode [RGB] is encoded as
    it is, without conversion or flattening. *)
Theorem jpeg_comes_from_encoder (import : raising pil_module)
    (data : list byte) (quality : Z) (body : list byte)
    (content_type : string) :
  _compress_to_jpeg import data quality = inr (body, content_type) →
  (body = data ∧ content_type = "image/png") ∨
  (content_type = "image/jpeg" ∧
   ∃ PIL decoded img,
     import = inr PIL ∧
     Image_open PIL data = inr decoded ∧
     Image_save_jpeg PIL img quality = inr body ∧
     (img_mode decoded = "RGB" → img = decoded)).
Proof.
  unfold _compress_to_jpeg. destruct import as [[]|PIL]; try discriminate.
  - intros [= <- <-]. by left.
  - destruct (jpeg_body PIL data quality) as [e|[out ct]] eqn:Hbody.
    + intros [= <- <-]. by left.
    + intros [= <- <-]. right.
      unfold jpeg_body in Hbody.
      destruct (Image_open PIL data) as [e|decoded] eqn:Hopen;
        [discriminate Hbody|].
      cbn [bind] in Hbody.
      match type of Hbody with
      | bind ?m _ = _ => destruct m as [e|img] eqn:Himg
      end; [discriminate Hbody|].
      cbn [bind] in Hbody.
      destruct (Image_save_jpeg PIL img quality) as [e|saved] eqn:Hsave;
        [discriminate Hbody|].
      injection Hbody as <- <-.
      split; [done|]. exists PIL, decoded, img.
      repeat split; try done.
      intros Hmode. rewrite Hmode in Himg. by injection Himg.
Qed.

Lemma jpeg_comes_from_encoder_witness :
  ([xff; xd8; x01; x02; x03; x04; xff; xd9] = tiny_png ∧
   "image/jpeg" = "image/png") ∨
  ("image/jpeg" = "image/jpeg" ∧
   ∃ PIL decoded img,
     (inr toy_PIL : raising pil_module) = inr PIL ∧
     Image_open PIL tiny_png = inr decoded ∧
     Image_save_jpeg PIL img 85
       = inr [xff; xd8; x01; x02; x03; x04; xff; xd9] ∧
     (img_mode decoded = "RGB" → img = decoded)).
Proof.
  apply (jpeg_comes_from_encoder (inr toy_PIL) tiny_png 85
           [xff; xd8; x01; x02; x03; x04; xff; xd9] "image/jpeg").
  reflexivity.
Defined.

(** * Further properties of path resolution *)

(** X9.  A [filename] that starts with [/] replaces the base directory and
    the subfolder in the composed path ([os.path.join] restarts at an
    absolute part): the request resolves, if at all, to the canonical form
    of the filename alone, and the subfolder plays no role; the base
    directory only serves in the containment test. *)
Theorem absolute_filename_replaces_base (h : host)
    (base_dir subfolder filename : string) :
  startswith filename "/" = true →
  resolve_path h base_dir subfolder filename
    = resolve_path h base_dir "" filename ∧
  ∀ full_path,
    resolve_path h base_dir subfolder filename = Some full_path →
    full_path = realpath h filename.
Proof.
  intros Habs.
  assert (Hjoin : ∀ path, join2 path filename = filename).
  { intros path. unfold join2. by rewrite Habs. }
  assert (Hresolve : ∀ sub, resolve_path h base_dir sub filename
            = if negb (startswith (realpath h filename) (realpath h base_dir))
              then None else Some (realpath h filename)).
  { intros sub. unfold resolve_path, os_path_join.
    destruct (negb (String.eqb sub "")); cbn [fold_left];
      by rewrite !Hjoin. }
  split.
  - by rewrite !Hresolve.
  - rewrite Hresolve. intros full_path.
    destruct (negb _); [discriminate|]. by intros [= <-].
Qed.

Lemma absolute_filename_replaces_base_witness :
  resolve_path demo_host "/data/output" "elsewhere" "/data/output/render.png"
    = resolve_path demo_host "/data/output" "" "/data/output/render.png" ∧
  ∀ full_path,
    resolve_path demo_host "/data/output" "elsewhere"
      "/data/output/render.png" = Some full_path →
    full_path = realpath demo_host "/data/output/render.png".
Proof.
  apply (absolute_filename_replaces_base demo_host "/data/output" "elsewhere"
           "/data/output/render.png").
  reflexivity.
Defined.










(** * Further properties of the catalog endpoint *)

Section CatalogRequests.

Context (cfg : config) (clock : nat → Z).

(** X11.  A catalog request asks the registry for a snapshot at most once,
    and it skips the registry exactly when [refresh] is off and the cache
    holds an entry younger than the time to live; in particular
    [refresh=1] always goes to the registry, and so does a request on an
    expired or empty cache. *)
Theorem registry_skipped_iff_fresh
    (nodes : raising (list (string * node_class)))
    (query : list (string * string)) (st : server_state) :
  let r := flowlite_catalog cfg clock nodes query st in
  (provider_calls r.2 = provider_calls st ↔
   query_flag query "refresh" = false ∧ entry_fresh cfg clock st) ∧
  (provider_calls r.2 ≠ provider_calls st →
   provider_calls r.2 = S (provider_calls st)).
Proof.
  unfold flowlite_catalog, entry_fresh.
  destruct (cache_hit cfg _ _ _) as [data|] eqn:Hhit.
  - apply cache_hit_Some in Hhit as (Hdata & Hrefresh & Hage). simpl.
    split; [|done]. split; [|done]. intros _. split; [done|]. by exists data.
  - assert (Hcalls : provider_calls
              (rebuild_catalog clock nodes (query_flag query "debug")
                 (clock (clock_reads st)) st).2 = S (provider_calls st)).
    { unfold rebuild_catalog. by destruct nodes. }
    rewrite Hcalls. split; [|done]. split; [lia|].
    intros (Hrefresh & data & Hdata & Hage).
    assert (Hhit' : cache_hit cfg (query_flag query "refresh")
                      (clock (clock_reads st)) (catalog_cache st) = Some data)
      by by apply cache_hit_Some.
    congruence.
Qed.

(** X12.  When the registry cannot be imported, the cache is not touched:
    the entry, if any, stays as it was, and the answer is either the cached
    catalog (no rebuild was due) or a 500 carrying the message of the
    exception. *)
Theorem failed_import_keeps_cache (e : exn)
    (query : list (string * string)) (st : server_state) :
  let r := flowlite_catalog cfg clock (inl e) query st in
  catalog_cache r.2 = catalog_cache st ∧
  (r.1 = CatalogError (exn_message e) ∨
   ∃ data, cache_data (catalog_cache st) = Some data ∧
           r.1 = CatalogOk None None data).
Proof.
  unfold flowlite_catalog.
  destruct (cache_hit cfg _ _ _) as [data|] eqn:Hhit; simpl.
  - split; [done|]. right. exists data. split; [|done].
    by apply cache_hit_Some in Hhit as (? & _).
  - split; [done|]. by left.
Qed.

Lemma flowlite_catalog_stamped
    (nodes : raising (list (string * node_class)))
    (query : list (string * string)) (st : server_state) :
  entry_stamped clock st →
  entry_stamped clock (flowlite_catalog cfg clock nodes query st).2.
Proof.
  intros Hst. unfold flowlite_catalog.
  destruct (cache_hit cfg _ _ _) as [data|]; simpl.
  - intros d Hd. destruct (Hst d Hd) as (n & Hn & Hts).
    exists n. split; [simpl; lia | done].
  - unfold rebuild_catalog. destruct nodes as [e|NCM]; simpl.
    + intros d Hd. destruct (Hst d Hd) as (n & Hn & Hts).
      exists n. split; [simpl; lia | done].
    + intros d _. exists (clock_reads st). split; [simpl; lia | done].
Qed.

Lemma never_fresh_without_ttl (st : server_state) :
  (CACHE_TTL cfg ≤ 0)%Z →
  (∀ n m, (n ≤ m)%nat → (clock n ≤ clock m)%Z) →
  entry_stamped clock st →
  ¬ entry_fresh cfg clock st.
Proof.
  intros Httl Hmono Hst (data & Hdata & Hage).
  destruct (Hst data Hdata) as (n & Hn & Hts).
  pose proof (Hmono n (clock_reads st)) as Hle. lia.
Qed.

Lemma serve_without_ttl (calls : list catalog_call) (st : server_state) :
  (CACHE_TTL cfg ≤ 0)%Z →
  (∀ n m, (n ≤ m)%nat → (clock n ≤ clock m)%Z) →
  entry_stamped clock st →
  provider_calls (serve cfg clock calls st).2
  = (provider_calls st + length calls)%nat.
Proof.
  intros Httl Hmono. revert st.
  induction calls as [|call calls IH]; intros st Hst; simpl; [lia|].
  rewrite IH by by apply flowlite_catalog_stamped.
  assert (Hcalls : provider_calls
            (flowlite_catalog cfg clock (call_nodes call) (call_query call)
               st).2 = S (provider_calls st)); [|lia].
  unfold flowlite_catalog.
  destruct (cache_hit cfg _ _ _) as [data|] eqn:Hhit.
  - exfalso. apply (never_fresh_without_ttl st Httl Hmono Hst).
    apply cache_hit_Some in Hhit as (Hdata & _ & Hage). by exists data.
  - unfold rebuild_catalog. by destruct (call_nodes call).
Qed.

(** X13.  A time to live of zero (or less) disables the cache: when the
    clock never runs backwards, every request of the process's life goes
    to the registry, so after any sequence of requests the registry has
    been asked once per request. *)
Theorem zero_ttl_disables_cache (calls : list catalog_call) :
  (CACHE_TTL cfg ≤ 0)%Z →
  (∀ n m, (n ≤ m)%nat → (clock n ≤ clock m)%Z) →
  provider_calls (serve cfg clock calls initial_state).2 = length calls.
Proof.
  intros Httl Hmono.
  rewrite serve_without_ttl; [done | done | done |].
  intros data Hdata. discriminate Hdata.
Qed.

End CatalogRequests.

Lemma registry_skipped_iff_fresh_witness :
  provider_calls
    (flowlite_catalog demo_config demo_clock (inr demo_NCM)
       [("refresh", "1")]
       (flowlite_catalog demo_config demo_clock (inr demo_NCM) []
          initial_state).2).2
  = 2%nat.
Proof.
  apply (proj2 (registry_skipped_iff_fresh demo_config demo_clock
                  (inr demo_NCM) [("refresh", "1")]
                  (flowlite_catalog demo_config demo_clock (inr demo_NCM) []
                     initial_state).2)).
  vm_compute. discriminate.
Defined.

Lemma zero_ttl_disables_cache_witness :
  provider_calls
    (serve {| CACHE_TTL := 0; JPEG_QUALITY := 85; DELETE_AFTER_SEND := true |}
       demo_clock
       [ {| call_nodes := inr demo_NCM; call_query := [] |};
         {| call_nodes := inr demo_NCM; call_query := [] |} ]
       initial_state).2
  = 2%nat.
Proof.
  apply (zero_ttl_disables_cache
           {| CACHE_TTL := 0; JPEG_QUALITY := 85; DELETE_AFTER_SEND := true |}
           demo_clock
           [ {| call_nodes := inr demo_NCM; call_query := [] |};
             {| call_nodes := inr demo_NCM; call_query := [] |} ]).
  - simpl. lia.
  - intros n m Hnm. unfold demo_clock. lia.
Defined.

(** * Further properties of the registry snapshot *)

Lemma dict_set_length (d : list (pyval * pyval)) (k : string) (v : pyval) :
  (length (dict_set d k v) ≤ S (length d))%nat.
Proof.
  induction d as [|[k' v'] d IH]; simpl; [lia|].
  destruct k'; simpl; try lia.
  destruct (String.eqb s k); simpl; lia.
Qed.

Lemma dict_get_set_eq (d : list (pyval * pyval)) (k : string) (v : pyval) :
  dict_get (dict_set d k v) k = v.
Proof.
  induction d as [|[k' v'] d IH]; simpl.
  - by rewrite String.eqb_refl.
  - destruct k'; simpl; try done.
    destruct (String.eqb s k) eqn:Hk; simpl; by rewrite Hk.
Qed.

Lemma dict_get_set_ne (d : list (pyval * pyval)) (k k' : string) (v : pyval) :
  k ≠ k' → dict_get (dict_set d k v) k' = dict_get d k'.
Proof.
  intros Hne. induction d as [|[k0 v0] d IH]; simpl.
  - by apply String.eqb_neq in Hne as ->.
  - destruct k0; simpl; try done.
    destruct (String.eqb_spec s k) as [->|Hs]; simpl.
    + by apply String.eqb_neq in Hne as ->.
    + by rewrite IH.
Qed.

(** X14.  The snapshot the catalog handler takes never holds more
    components than the registry has classes, and its diagnostic sample
    never holds more than three entries, each with a non-empty
    [INPUT_TYPES()] result. *)
Theorem snapshot_is_bounded (NCM : list (string * node_class)) :
  (length (snapshot NCM).1 ≤ length NCM)%nat ∧
  (length (snapshot NCM).2 ≤ 3)%nat ∧
  Forall (fun sample => truthy (si_input sample) = true) (snapshot NCM).2.
Proof.
  unfold snapshot.
  assert (Hgen : ∀ acc,
            (length acc.2 ≤ 3)%nat →
            Forall (fun sample => truthy (si_input sample) = true) acc.2 →
            (length (fold_left snapshot_step NCM acc).1
               ≤ length acc.1 + length NCM)%nat ∧
            (length (fold_left snapshot_step NCM acc).2 ≤ 3)%nat ∧
            Forall (fun sample => truthy (si_input sample) = true)
              (fold_left snapshot_step NCM acc).2).
  { induction NCM as [|[name cls] NCM IH]; intros acc Hlen Hall; simpl.
    - split; [lia | done].
    - assert (Hstep : (length (snapshot_step acc (name, cls)).1
                         ≤ S (length acc.1))%nat ∧
                      (length (snapshot_step acc (name, cls)).2 ≤ 3)%nat ∧
                      Forall (fun sample => truthy (si_input sample) = true)
                        (snapshot_step acc (name, cls)).2).
      { unfold snapshot_step. cbn [fst snd].
        destruct (match cls with
                  | NoInputTypes => Some (PDict [])
                  | InputTypes v => Some v
                  | InputTypesRaises => None
                  end) as [inp|]; cbn [fst snd]; [|split; [lia | done]].
        split; [apply dict_set_length|].
        destruct ((length acc.2 <? 3)%nat && truthy inp) eqn:Htake; [|done].
        apply andb_true_iff in Htake as [Hlt Htruthy].
        apply Nat.ltb_lt in Hlt. split.
        - rewrite length_app. simpl. lia.
        - apply Forall_app. split; [done|].
          constructor; [done | constructor]. }
      destruct Hstep as (Hoi & Hsamples & Htruthy).
      destruct (IH _ Hsamples Htruthy) as (IHoi & IHrest).
      split; [lia | done]. }
  destruct (Hgen ([], [])) as (Hoi & Hrest); simpl; [lia | done |].
  split; [simpl in Hoi; lia | done].
Qed.

Lemma snapshot_fold_lookup (NCM : list (string * node_class))
    (acc : list (pyval * pyval) * list sample_input) (name : string) :
  NoDup NCM.*1 →
  (name ∉ NCM.*1 →
   dict_get (fold_left snapshot_step NCM acc).1 name = dict_get acc.1 name) ∧
  (∀ cls, (name, cls) ∈ NCM →
   dict_get (fold_left snapshot_step NCM acc).1 name
   = match cls with
     | NoInputTypes => PDict [(PStr "input", PDict [])]
     | InputTypes inp => PDict [(PStr "input", inp)]
     | InputTypesRaises => dict_get acc.1 name
     end).
Proof.
  revert acc. induction NCM as [|[name' cls'] NCM IH]; intros acc Hnodup.
  - split; [done|]. intros cls H. by apply elem_of_nil in H.
  - apply NoDup_cons in Hnodup as [Hfresh Hnodup]. simpl.
    destruct (IH (snapshot_step acc (name', cls')) Hnodup) as [IHout IHin].
    assert (Hother : name' ≠ name →
              dict_get (snapshot_step acc (name', cls')).1 name
              = dict_get acc.1 name).
    { intros Hne. unfold snapshot_step. simpl.
      destruct cls'; simpl; try done; by apply dict_get_set_ne. }
    split.
    + intros Hout. apply not_elem_of_cons in Hout as [Hne Hout].
      rewrite IHout by done. by apply Hother.
    + intros cls Hin. apply elem_of_cons in Hin as [[= -> ->] | Hin].
      * rewrite IHout by done. unfold snapshot_step. simpl.
        destruct cls'; simpl; try done; apply dict_get_set_eq.
      * rewrite (IHin cls Hin).
        destruct cls; try done. apply Hother. intros ->.
        apply Hfresh. apply list_elem_of_fmap. by exists (name, InputTypesRaises).
Qed.

(** X15.  What the snapshot holds for a class of the registry (class names
    being distinct, as the keys of a dictionary are): looking the name up
    gives [{"input": inp}] for a class whose [INPUT_TYPES()] returns [inp],
    [{"input": {}}] for a class without [INPUT_TYPES], and nothing for a
    class whose [INPUT_TYPES()] raises: that class is skipped, and the
    other classes are still there. *)
Theorem snapshot_lookup (NCM : list (string * node_class)) (name : string)
    (cls : node_class) :
  NoDup NCM.*1 →
  (name, cls) ∈ NCM →
  dict_get (snapshot NCM).1 name
  = match cls with
    | NoInputTypes => PDict [(PStr "input", PDict [])]
    | InputTypes inp => PDict [(PStr "input", inp)]
    | InputTypesRaises => PNone
    end.
Proof.
  intros Hnodup Hin. unfold snapshot.
  destruct (snapshot_fold_lookup NCM ([], []) name Hnodup) as [_ Hlookup].
  rewrite (Hlookup cls Hin). by destruct cls.
Qed.

Lemma snapshot_lookup_witness :
  dict_get (snapshot demo_NCM).1 "Flaky" = PNone.
Proof.
  apply (snapshot_lookup demo_NCM "Flaky" InputTypesRaises).
  - vm_compute. repeat (constructor; [set_solver|]). constructor.
  - do 2 apply list_elem_of_further. apply list_elem_of_here.
Defined.

(** * Further properties of the extraction *)

Lemma not_component_required_optional (spec : pyval) :
  (∀ d, spec ≠ PDict d) ∨
  (∃ d, spec = PDict d ∧ ∀ inp, dict_get d "input" ≠ PDict inp) →
  required_optional spec = None.
Proof.
  intros [Hspec | (d & -> & Hinput)]; unfold required_optional.
  - destruct spec; try done. by destruct (Hspec entries).
  - destruct (dict_get d "input") eqn:Hget; try done.
    by destruct (Hinput entries).
Qed.

Lemma scan_component_malformed (keys : list string) (name spec : pyval)
    (st : extraction) :
  required_optional spec = None → scan_component keys name spec st = st.
Proof. intros Hspec. unfold scan_component. by rewrite Hspec. Qed.

Lemma scan_lora_component_malformed (name spec : pyval) (st : extraction) :
  required_optional spec = None → scan_lora_component name spec st = st.
Proof.
  intros Hspec. unfold scan_lora_component. rewrite Hspec.
  destruct name; try done. by destruct (contains (lower s) "lora").
Qed.

Lemma extract_list_drop (oi1 oi2 : list (pyval * pyval)) (name spec : pyval)
    (keys : list string) (debug_info : option (list debug_record)) :
  required_optional spec = None →
  _extract_list (oi1 ++ (name, spec) :: oi2) keys debug_info
  = _extract_list (oi1 ++ oi2) keys debug_info.
Proof.
  intros Hspec. unfold _extract_list, extract_list_scan.
  rewrite !fold_left_app. cbn [fold_left fst snd].
  by rewrite scan_component_malformed.
Qed.

Lemma extract_loras_drop (oi1 oi2 : list (pyval * pyval)) (name spec : pyval)
    (debug_info : option (list debug_record)) :
  required_optional spec = None →
  _extract_loras (oi1 ++ (name, spec) :: oi2) debug_info
  = _extract_loras (oi1 ++ oi2) debug_info.
Proof.
  intros Hspec. unfold _extract_loras, extract_loras_scan.
  rewrite !fold_left_app. cbn [fold_left fst snd].
  by rewrite scan_lora_component_malformed.
Qed.

(** X16.  A registry entry that is not a component (its value is not a
    dictionary, or has no dictionary under ["input"]) is ignored: the
    catalog, diagnostics included, is the one built from the registry
    without that entry. *)
Theorem malformed_component_is_ignored (now : Z)
    (oi1 oi2 : list (pyval * pyval)) (name spec : pyval) (debug : bool) :
  (∀ d, spec ≠ PDict d) ∨
  (∃ d, spec = PDict d ∧ ∀ inp, dict_get d "input" ≠ PDict inp) →
  _build_catalog now (oi1 ++ (name, spec) :: oi2) debug
  = _build_catalog now (oi1 ++ oi2) debug.
Proof.
  intros Hspec. apply not_component_required_optional in Hspec.
  unfold _build_catalog.
  by rewrite !extract_list_drop, !extract_loras_drop, ?extract_list_drop
    by done.
Qed.

Lemma malformed_component_is_ignored_witness :
  _build_catalog 7
    ([dual_loader] ++ (PStr "Broken", PStr "not a dict") :: [dual_loader]) true
  = _build_catalog 7 ([dual_loader] ++ [dual_loader]) true.
Proof.
  apply (malformed_component_is_ignored 7 [dual_loader] [dual_loader]
           (PStr "Broken") (PStr "not a dict") true).
  left. intros d. discriminate.
Defined.

(** X17.  The LoRA list holds only choices that the [lora_name] field
    offers: every string of [_extract_loras] is also returned by
    [_extract_list] for the key [lora_name]; the name filter only narrows
    the components that are looked at. *)
Theorem loras_are_lora_name_choices (object_info : list (pyval * pyval))
    (debug_info debug_info' : option (list debug_record)) (x : string) :
  x ∈ (_extract_loras object_info debug_info).1 →
  x ∈ (_extract_list object_info ["lora_name"] debug_info').1.
Proof.
  rewrite extract_loras_out, extract_list_out, !elem_of_dedupe.
  unfold lora_candidates, candidates. rewrite !elem_of_flat_map.
  intros (item & Hitem & Hx). exists item. split; [done|].
  destruct (is_lora_component item.1); [done|]. by apply elem_of_nil in Hx.
Qed.

Lemma loras_are_lora_name_choices_witness :
  "detail" ∈ (_extract_list demo_registry ["lora_name"] None).1.
Proof.
  apply (loras_are_lora_name_choices demo_registry None None "detail").
  vm_compute. apply list_elem_of_here.
Defined.

(** X18.  Diagnostics do not change what is extracted: the list
    [_extract_list] returns is the same whatever [debug_info] is passed,
    and a catalog built with [debug] differs from the one built without in
    its [extraction_debug] only (for one reading of the clock). *)
Theorem diagnostics_do_not_change_lists (now : Z)
    (object_info : list (pyval * pyval)) (keys : list string)
    (debug_info debug_info' : option (list debug_record)) :
  (_extract_list object_info keys debug_info).1
    = (_extract_list object_info keys debug_info').1 ∧
  (_extract_loras object_info debug_info).1
    = (_extract_loras object_info debug_info').1 ∧
  ts (_build_catalog now object_info true)
    = ts (_build_catalog now object_info false) ∧
  same_lists (_build_catalog now object_info true)
    (_build_catalog now object_info false) ∧
  is_Some (extraction_debug (_build_catalog now object_info true)) ∧
  extraction_debug (_build_catalog now object_info false) = None.
Proof.
  split; [by rewrite !extract_list_out|].
  split; [by rewrite !extract_loras_out|].
  split; [done|].
  split; [apply build_catalog_same_lists|].
  split; [apply build_catalog_diagnostic | done].
Qed.

Lemma dedupe_fold_extends (out : list string)
    (acc : gset string * list string) :
  acc.2 `prefix_of` (fold_left dedupe_step out acc).2.
Proof.
  revert acc. induction out as [|x out IH]; intros acc; simpl; [done|].
  etrans; [|apply IH]. unfold dedupe_step.
  destruct (decide (x ∈ acc.1)); simpl; [done|]. by apply prefix_app_r.
Qed.

Lemma dedupe_app_prefix (out more : list string) :
  dedupe out `prefix_of` dedupe (out ++ more).
Proof.
  unfold dedupe. rewrite fold_left_app. apply dedupe_fold_extends.
Qed.

(** X19.  Appending components to the registry only appends to the
    extracted lists: the list extracted from a registry is a prefix of the
    list extracted from any extension of it, so the entries found so far
    keep their positions. *)
Theorem registry_growth_appends (object_info more : list (pyval * pyval))
    (keys : list string) (debug_info debug_info' : option (list debug_record)) :
  (_extract_list object_info keys debug_info).1
    `prefix_of` (_extract_list (object_info ++ more) keys debug_info').1 ∧
  (_extract_loras object_info debug_info).1
    `prefix_of` (_extract_loras (object_info ++ more) debug_info').1.
Proof.
  rewrite !extract_list_out, !extract_loras_out.
  unfold candidates, lora_candidates. rewrite !flat_map_app.
  split; apply dedupe_app_prefix.
Qed.

Lemma dedupe_step_new (acc : gset string * list string) (x : string) :
  x ∉ acc.1 → dedupe_step acc x = ({[x]} ∪ acc.1, acc.2 ++ [x]).
Proof. intros Hx. unfold dedupe_step. by destruct (decide (x ∈ acc.1)). Qed.

Lemma dedupe_distinct (out : list string) : NoDup out → dedupe out = out.
Proof.
  unfold dedupe.
  induction out as [|x out IH] using rev_ind; intros Hnodup; [done|].
  apply NoDup_app in Hnodup as (Hout & Hfresh & _).
  destruct (dedupe_invariant out) as [Hseen _].
  rewrite fold_left_snoc, dedupe_step_new.
  - cbn [snd]. by rewrite IH.
  - intros Hx. apply Hseen in Hx. apply (Hfresh x Hx), list_elem_of_here.
Qed.

(** X20.  Deduplication changes nothing on a list without duplicates, and
    is therefore idempotent: extracting, then deduplicating again, gives
    the extracted list. *)
Theorem dedupe_is_idempotent (out : list string)
    (object_info : list (pyval * pyval)) (keys : list string)
    (debug_info : option (list debug_record)) :
  (NoDup out → dedupe out = out) ∧
  dedupe (dedupe out) = dedupe out ∧
  dedupe (_extract_list object_info keys debug_info).1
    = (_extract_list object_info keys debug_info).1.
Proof.
  assert (Hidem : ∀ l, dedupe (dedupe l) = dedupe l).
  { intros l. apply dedupe_distinct. by destruct (dedupe_first_seen l). }
  split; [apply dedupe_distinct|]. split; [apply Hidem|].
  rewrite extract_list_out. apply Hidem.
Qed.

Lemma dedupe_is_idempotent_witness :
  dedupe ["euler"; "dpmpp_2m"] = ["euler"; "dpmpp_2m"].
Proof.
  apply (proj1 (dedupe_is_idempotent ["euler"; "dpmpp_2m"] [] [] None)).
  repeat (constructor; [set_solver|]). constructor.
Defined.

(** ** Trimmed strings *)

Lemma append_nil_r (s : string) : s +:+ "" = s.
Proof. induction s as [|c s IH]; [done|]. by rewrite append_cons, IH. Qed.

Lemma rev_app_append (s t : string) :
  String.rev_app s t = String.rev s +:+ t.
Proof.
  unfold String.rev. revert t.
  induction s as [|c s IH]; intros t; [done|].
  cbn [String.rev_app]. rewrite (IH (String c t)), (IH (String c "")).
  by rewrite append_assoc.
Qed.

Lemma rev_cons (c : ascii) (s : string) :
  String.rev (String c s) = String.rev s +:+ String c "".
Proof. unfold String.rev at 1. cbn [String.rev_app]. apply rev_app_append. Qed.

Lemma rev_append (s t : string) :
  String.rev (s +:+ t) = String.rev t +:+ String.rev s.
Proof.
  induction s as [|c s IH].
  - by rewrite append_nil_l, append_nil_r.
  - by rewrite append_cons, !rev_cons, IH, append_assoc.
Qed.

Lemma rev_involutive (s : string) : String.rev (String.rev s) = s.
Proof.
  induction s as [|c s IH]; [done|].
  by rewrite rev_cons, rev_append, IH.
Qed.

Lemma lstrip_suffix (s : string) : ∃ spaces, s = spaces +:+ lstrip s.
Proof.
  induction s as [|c s [spaces IH]]; [by exists ""|].
  cbn [lstrip]. destruct (is_space c).
  - exists (String c spaces). by rewrite append_cons, <- IH.
  - by exists "".
Qed.

Lemma lstrip_head (s : string) (c : ascii) (t : string) :
  lstrip s = String c t → is_space c = false.
Proof.
  induction s as [|a s IH]; [discriminate|].
  cbn [lstrip]. destruct (is_space a) eqn:Ha; [done|].
  by intros [= <- _].
Qed.

Lemma lstrip_idempotent (s : string) : lstrip (lstrip s) = lstrip s.
Proof.
  destruct (lstrip s) as [|c t] eqn:Hs; [done|].
  cbn [lstrip]. by rewrite (lstrip_head s c t Hs).
Qed.

Lemma strip_idempotent (s : string) : strip (strip s) = strip s.
Proof.
  unfold strip.
  destruct (lstrip_suffix (String.rev (lstrip s))) as [spaces Hspaces].
  set (u := lstrip (String.rev (lstrip s))) in *.
  assert (Hhead : lstrip (String.rev u) = String.rev u).
  { destruct (String.rev u) as [|c r] eqn:Hr; [done|].
    cbn [lstrip].
    assert (Hv : lstrip s = String c (r +:+ String.rev spaces)).
    { rewrite <- (rev_involutive (lstrip s)), Hspaces, rev_append, Hr.
      by rewrite append_cons. }
    by rewrite (lstrip_head s c _ Hv). }
  rewrite Hhead, rev_involutive. subst u. by rewrite lstrip_idempotent.
Qed.

Lemma choice_strings_trimmed (items : list pyval) (x : string) :
  x ∈ choice_strings items → x ≠ "" ∧ strip x = x.
Proof.
  unfold choice_strings. rewrite elem_of_flat_map.
  intros (item & _ & Hx). destruct item; try by apply elem_of_nil in Hx.
  destruct (String.eqb_spec (strip s) "") as [|Hne];
    [by apply elem_of_nil in Hx|].
  apply list_elem_of_singleton in Hx as ->.
  split; [done | apply strip_idempotent].
Qed.

Lemma component_candidates_trimmed (keys : list string) (spec : pyval)
    (x : string) :
  x ∈ component_candidates keys spec → x ≠ "" ∧ strip x = x.
Proof.
  unfold component_candidates.
  destruct (required_optional spec) as [[req opt]|];
    [|intros H; by apply elem_of_nil in H].
  rewrite elem_of_flat_map. intros (k & _ & Hx). revert Hx.
  unfold field_choices.
  destruct (truthy _); [|intros H; by apply elem_of_nil in H].
  destruct (as_sequence _) as [[|first rest]|];
    try (intros H; by apply elem_of_nil in H).
  destruct (as_sequence first);
    [apply choice_strings_trimmed | intros H; by apply elem_of_nil in H].
Qed.

(** X21.  Every string of an extracted list is trimmed and not blank: it
    is not empty and [strip] leaves it unchanged; this holds for
    [_extract_list] and for [_extract_loras], hence for every list of the
    catalog. *)
Theorem extracted_strings_are_trimmed (object_info : list (pyval * pyval))
    (keys : list string) (debug_info : option (list debug_record))
    (x : string) :
  x ∈ (_extract_list object_info keys debug_info).1 ∨
  x ∈ (_extract_loras object_info debug_info).1 →
  x ≠ "" ∧ strip x = x.
Proof.
  rewrite extract_list_out, extract_loras_out, !elem_of_dedupe.
  unfold candidates, lora_candidates. rewrite !elem_of_flat_map.
  intros [(item & _ & Hx) | (item & _ & Hx)].
  - by apply (component_candidates_trimmed keys item.2).
  - destruct (is_lora_component item.1); [|by apply elem_of_nil in Hx].
    by apply (component_candidates_trimmed ["lora_name"] item.2).
Qed.

Lemma extracted_strings_are_trimmed_witness :
  "sdxl-base" ≠ "" ∧ strip "sdxl-base" = "sdxl-base".
Proof.
  apply (extracted_strings_are_trimmed demo_registry
           ["ckpt_name"; "model_name"] None "sdxl-base").
  left. vm_compute. apply list_elem_of_further, list_elem_of_here.
Defined.

(** ** Invariants of the diagnostics *)

Section DebugInvariant.

(** A property [Q] of [debug_info] that every appended record keeps, for
    the keys that satisfy [K]. *)
Context (K : string → Prop) (Q : option (list debug_record) → Prop).
Hypothesis Q_record : ∀ node_name k first debug_info,
  K k → Q debug_info → Q (record_debug node_name k first debug_info).

Lemma scan_field_debug (node_name : pyval) (k : string) (lspec : pyval)
    (st : extraction) :
  K k → Q st.2 → Q (scan_field node_name k lspec st).2.
Proof.
  intros Hk Hst. unfold scan_field.
  destruct (truthy lspec); simpl; [|done].
  destruct (as_sequence lspec) as [[|first rest]|]; try done.
  destruct (as_sequence first); [|done]. simpl. by apply Q_record.
Qed.

Lemma scan_component_debug (keys : list string) (node_name spec : pyval)
    (st : extraction) :
  Forall K keys → Q st.2 → Q (scan_component keys node_name spec st).2.
Proof.
  intros Hkeys. unfold scan_component.
  destruct (required_optional spec) as [[req opt]|]; [|done].
  revert st. induction Hkeys as [|k keys Hk Hkeys IH]; intros st Hst; simpl;
    [done|].
  by apply IH, scan_field_debug.
Qed.

Lemma extract_list_debug (object_info : list (pyval * pyval))
    (keys : list string) (debug_info : option (list debug_record)) :
  Forall K keys → Q debug_info →
  Q (_extract_list object_info keys debug_info).2.
Proof.
  intros Hkeys. unfold _extract_list, extract_list_scan. cbn [snd].
  generalize (@nil string). revert debug_info.
  induction object_info as [|item oi IH]; intros d out Hd; simpl; [done|].
  pose proof (scan_component_debug keys item.1 item.2 (out, d) Hkeys Hd) as H.
  destruct (scan_component keys item.1 item.2 (out, d)) as [out' d'].
  by apply IH.
Qed.

Lemma extract_loras_debug (object_info : list (pyval * pyval))
    (debug_info : option (list debug_record)) :
  K "lora_name" → Q debug_info → Q (_extract_loras object_info debug_info).2.
Proof.
  intros Hkey. unfold _extract_loras, extract_loras_scan. cbn [snd].
  generalize (@nil string). revert debug_info.
  induction object_info as [|item oi IH]; intros d out Hd; simpl; [done|].
  assert (H : Q (scan_lora_component item.1 item.2 (out, d)).2).
  { unfold scan_lora_component. destruct item.1; try done.
    destruct (contains (lower s) "lora"); [|done].
    destruct (required_optional item.2) as [[req opt]|]; [|done].
    by apply scan_field_debug. }
  destruct (scan_lora_component item.1 item.2 (out, d)) as [out' d'].
  by apply IH.
Qed.

Lemma build_catalog_debug (now : Z) (object_info : list (pyval * pyval)) :
  Forall K ["unet_name"; "ckpt_name"; "model_name"; "lora_name"; "vae_name";
            "vae"; "sampler_name"; "scheduler"] →
  Q (Some []) →
  Q (extraction_debug (_build_catalog now object_info true)).
Proof.
  intros Hkeys Hstart.
  assert (Hkey : ∀ k, k ∈ ["unet_name"; "ckpt_name"; "model_name";
                            "lora_name"; "vae_name"; "vae"; "sampler_name";
                            "scheduler"] → K k).
  { by apply Forall_forall. }
  unfold _build_catalog. cbn [extraction_debug].
  repeat first
    [ apply extract_list_debug;
        [repeat (constructor; [apply Hkey; set_solver|]); constructor|]
    | apply extract_loras_debug; [apply Hkey; set_solver|] ].
  done.
Qed.

End DebugInvariant.

(** X22.  Every record of a catalog's [extraction_debug] names one of the
    eight field names the catalog looks for, counts at least one choice,
    and samples the first three choices at most: the sample has
    [min(3, count)] entries. *)
Theorem diagnostic_records_are_well_formed (now : Z)
    (object_info : list (pyval * pyval)) (records : list debug_record) :
  extraction_debug (_build_catalog now object_info true) = Some records →
  Forall
    (fun record =>
       dbg_key record ∈ ["unet_name"; "ckpt_name"; "model_name"; "lora_name";
                         "vae_name"; "vae"; "sampler_name"; "scheduler"] ∧
       (0 < dbg_count record)%nat ∧
       length (dbg_sample record) = (3 `min` dbg_count record)%nat)
    records.
Proof.
  intros Hrecords.
  apply (build_catalog_debug
           (fun k => k ∈ ["unet_name"; "ckpt_name"; "model_name";
                          "lora_name"; "vae_name"; "vae"; "sampler_name";
                          "scheduler"])
           (fun debug_info => ∀ d, debug_info = Some d →
              Forall
                (fun record =>
                   dbg_key record ∈ ["unet_name"; "ckpt_name"; "model_name";
                                     "lora_name"; "vae_name"; "vae";
                                     "sampler_name"; "scheduler"] ∧
                   (0 < dbg_count record)%nat ∧
                   length (dbg_sample record)
                   = (3 `min` dbg_count record)%nat) d)
           ) with (now := now) (object_info := object_info); try done.
  - intros node_name k first debug_info Hk Hd d.
    destruct debug_info as [d0|]; [|by destruct first].
    destruct first as [|item first]; simpl.
    + intros [= <-]. by apply Hd.
    + intros [= <-]. apply Forall_app. split; [by apply Hd|].
      constructor; [|constructor]. cbn [dbg_key dbg_count dbg_sample].
      split; [done|]. split; [lia|].
      cbn [length]. rewrite length_take.
      by destruct (length first) as [|[|n]].
  - by apply Forall_forall.
  - intros d [= <-]. constructor.
Qed.

Lemma diagnostic_records_are_well_formed_witness :
  Forall
    (fun record =>
       dbg_key record ∈ ["unet_name"; "ckpt_name"; "model_name"; "lora_name";
                         "vae_name"; "vae"; "sampler_name"; "scheduler"] ∧
       (0 < dbg_count record)%nat ∧
       length (dbg_sample record) = (3 `min` dbg_count record)%nat)
    (default [] (extraction_debug (_build_catalog 7 demo_registry true))).
Proof.
  apply (diagnostic_records_are_well_formed 7 demo_registry).
  vm_compute. reflexivity.
Defined.
